(** * yamux: the per-stream state machine and flow-control engine (stream.go)

    A shallow embedding of [stream.go].  Every method of [*Stream] becomes a
    function that takes the stream and returns the stream it leaves behind,
    together with what the method returns.

    Conventions of the embedding.
    - [uint32] and [uint16] values are [Z]; every arithmetic operation writes
      its wrap-around out ([wrap32]).
    - [*Session] is a collaborator outside [stream.go].  The stream only calls
      [waitForSendErr], [establishStream], [closeStream], [logger.Printf] and
      reads [config.MaxStreamWindowSize]; [Session] records those calls, and
      [waitErr] is the answer the session gives to the n-th submitted frame.
    - A method that can park in a [select] returns a [Blocked] outcome; the
      loop is entered again by the matching wake function.
    - Each method runs as one atomic step, so a mutex that is locked and
      unlocked inside a call leaves no trace.  The one return that leaves a
      mutex locked is recorded: [readData] refusing a frame larger than the
      window keeps [recvLock], and a later [Read] waits for it. *)

From Stdlib Require Import ZArith List Bool Lia.
Import ListNotations.
Open Scope Z_scope.

(** ** Fixed-width integers *)

Definition wrap32 (z : Z) : Z := z mod 4294967296.
Definition add32 (a b : Z) : Z := wrap32 (a + b).
Definition sub32 (a b : Z) : Z := wrap32 (a - b).
(** [^x] on a [uint32]. *)
Definition not32 (a : Z) : Z := wrap32 (Z.lnot a).
(** [uint32(len(b))]: the conversion keeps the low 32 bits of the [int]. *)
Definition uint32_of_len {A : Type} (l : list A) : Z := wrap32 (Z.of_nat (length l)).

(** ** States, errors, frames *)

Inductive streamState : Type :=
| streamInit
| streamSYNSent
| streamSYNReceived
| streamEstablished
| streamLocalClose
| streamRemoteClose
| streamClosed
| streamReset.

Definition streamState_eqb (a b : streamState) : bool :=
  match a, b with
  | streamInit, streamInit
  | streamSYNSent, streamSYNSent
  | streamSYNReceived, streamSYNReceived
  | streamEstablished, streamEstablished
  | streamLocalClose, streamLocalClose
  | streamRemoteClose, streamRemoteClose
  | streamClosed, streamClosed
  | streamReset, streamReset => true
  | _, _ => false
  end.

(** The error values [stream.go] returns.  [timeoutError] is the value of the
    entry checks of [Read] and [write]; [ErrTimeout] the one of their
    [select].  [ErrSession] stands for whatever the session or the transport
    reports. *)
Inductive error : Type :=
| timeoutError
| ErrTimeout
| EOF
| ErrStreamClosed
| ErrConnectionReset
| ErrRecvWindowExceeded
| ErrUnexpectedFlag
| ErrSession (code : nat).

(** Modelled from the spec: the flag bits of the frame header are declared in
    a file of the repository that is not part of the sources at hand; the
    specification gives SYN=0x1, ACK=0x2, FIN=0x4, RST=0x8. *)
Definition flagSYN : Z := 1.
Definition flagACK : Z := 2.
Definition flagFIN : Z := 4.
Definition flagRST : Z := 8.

(** Modelled from the spec: [initialStreamWindow] is declared outside
    [stream.go]; the specification gives 262144 (256 KiB). *)
Definition initialStreamWindow : Z := 262144.

(** The two message types [stream.go] encodes. *)
Inductive msgType : Type := typeData | typeWindowUpdate.

(** What [hdr.encode(msgType, flags, streamID, length)] stores. *)
Record header : Type := encode {
  MsgType : msgType;
  Flags : Z;
  StreamID : Z;
  Length : Z
}.

(** One call of [session.waitForSendErr(hdr, body, errCh)]. *)
Record frame : Type := mkFrame {
  fhdr : header;
  fbody : option (list Byte.byte)
}.

(** The lines [stream.go] writes to the session's logger. *)
Inductive logEntry : Type :=
| LogUnexpectedFIN (st : streamState)
| LogRecvWindowExceeded (stream remain recv : Z)
| LogReadFailed (e : error).

Record Session : Type := mkSession {
  MaxStreamWindowSize : Z;
  waitErr : nat -> option error;
  sent : list frame;
  established : list Z;
  closedStreams : list Z;
  logged : list logEntry
}.

(** A timer of the Go runtime created by [time.AfterFunc]. *)
Inductive deadlineKind : Type := ReadDeadline | WriteDeadline.

Record Timer : Type := mkTimer {
  fireAt : Z;
  sets : deadlineKind;
  stopped : bool;
  fired : bool
}.

(** The [Stream] struct.  [readTimer] and [writeTimer] are pointers into
    [runtimeTimers], the timers the runtime holds for this stream: a timer
    stays there, and fires, whether or not the stream still points to it.
    A channel of capacity one holding [struct{}] is a [bool].  Of the
    mutexes, which every method releases before it returns, only [recvLock]
    has a field: it is [true] when a call has returned without unlocking
    it. *)
Record Stream : Type := mkStream {
  recvWindow : Z;
  sendWindow : Z;
  id : Z;
  session : Session;
  state : streamState;
  recvBuf : option (list Byte.byte);
  recvNotifyCh : bool;
  sendNotifyCh : bool;
  readTimer : option nat;
  readTimedOut : Z;
  writeTimer : option nat;
  writeTimedOut : Z;
  runtimeTimers : list Timer;
  recvLock : bool
}.

(** *** Field updates *)

Definition set_sent (x : list frame) (c : Session) : Session :=
  mkSession (MaxStreamWindowSize c) (waitErr c) x (established c)
            (closedStreams c) (logged c).
Definition set_established (x : list Z) (c : Session) : Session :=
  mkSession (MaxStreamWindowSize c) (waitErr c) (sent c) x
            (closedStreams c) (logged c).
Definition set_closedStreams (x : list Z) (c : Session) : Session :=
  mkSession (MaxStreamWindowSize c) (waitErr c) (sent c) (established c)
            x (logged c).
Definition set_logged (x : list logEntry) (c : Session) : Session :=
  mkSession (MaxStreamWindowSize c) (waitErr c) (sent c) (established c)
            (closedStreams c) x.

Definition set_recvWindow (x : Z) (s : Stream) : Stream :=
  mkStream x (sendWindow s) (id s) (session s) (state s) (recvBuf s)
           (recvNotifyCh s) (sendNotifyCh s) (readTimer s) (readTimedOut s)
           (writeTimer s) (writeTimedOut s) (runtimeTimers s) (recvLock s).
Definition set_sendWindow (x : Z) (s : Stream) : Stream :=
  mkStream (recvWindow s) x (id s) (session s) (state s) (recvBuf s)
           (recvNotifyCh s) (sendNotifyCh s) (readTimer s) (readTimedOut s)
           (writeTimer s) (writeTimedOut s) (runtimeTimers s) (recvLock s).
Definition set_session (x : Session) (s : Stream) : Stream :=
  mkStream (recvWindow s) (sendWindow s) (id s) x (state s) (recvBuf s)
           (recvNotifyCh s) (sendNotifyCh s) (readTimer s) (readTimedOut s)
           (writeTimer s) (writeTimedOut s) (runtimeTimers s) (recvLock s).
Definition set_state (x : streamState) (s : Stream) : Stream :=
  mkStream (recvWindow s) (sendWindow s) (id s) (session s) x (recvBuf s)
           (recvNotifyCh s) (sendNotifyCh s) (readTimer s) (readTimedOut s)
           (writeTimer s) (writeTimedOut s) (runtimeTimers s) (recvLock s).
Definition set_recvBuf (x : option (list Byte.byte)) (s : Stream) : Stream :=
  mkStream (recvWindow s) (sendWindow s) (id s) (session s) (state s) x
           (recvNotifyCh s) (sendNotifyCh s) (readTimer s) (readTimedOut s)
           (writeTimer s) (writeTimedOut s) (runtimeTimers s) (recvLock s).
Definition set_recvNotifyCh (x : bool) (s : Stream) : Stream :=
  mkStream (recvWindow s) (sendWindow s) (id s) (session s) (state s)
           (recvBuf s) x (sendNotifyCh s) (readTimer s) (readTimedOut s)
           (writeTimer s) (writeTimedOut s) (runtimeTimers s) (recvLock s).
Definition set_sendNotifyCh (x : bool) (s : Stream) : Stream :=
  mkStream (recvWindow s) (sendWindow s) (id s) (session s) (state s)
           (recvBuf s) (recvNotifyCh s) x (readTimer s) (readTimedOut s)
           (writeTimer s) (writeTimedOut s) (runtimeTimers s) (recvLock s).
Definition set_readTimer (x : option nat) (s : Stream) : Stream :=
  mkStream (recvWindow s) (sendWindow s) (id s) (session s) (state s)
           (recvBuf s) (recvNotifyCh s) (sendNotifyCh s) x (readTimedOut s)
           (writeTimer s) (writeTimedOut s) (runtimeTimers s) (recvLock s).
Definition set_readTimedOut (x : Z) (s : Stream) : Stream :=
  mkStream (recvWindow s) (sendWindow s) (id s) (session s) (state s)
           (recvBuf s) (recvNotifyCh s) (sendNotifyCh s) (readTimer s) x
           (writeTimer s) (writeTimedOut s) (runtimeTimers s) (recvLock s).
Definition set_writeTimer (x : option nat) (s : Stream) : Stream :=
  mkStream (recvWindow s) (sendWindow s) (id s) (session s) (state s)
           (recvBuf s) (recvNotifyCh s) (sendNotifyCh s) (readTimer s)
           (readTimedOut s) x (writeTimedOut s) (runtimeTimers s) (recvLock s).
Definition set_writeTimedOut (x : Z) (s : Stream) : Stream :=
  mkStream (recvWindow s) (sendWindow s) (id s) (session s) (state s)
           (recvBuf s) (recvNotifyCh s) (sendNotifyCh s) (readTimer s)
           (readTimedOut s) (writeTimer s) x (runtimeTimers s) (recvLock s).
Definition set_runtimeTimers (x : list Timer) (s : Stream) : Stream :=
  mkStream (recvWindow s) (sendWindow s) (id s) (session s) (state s)
           (recvBuf s) (recvNotifyCh s) (sendNotifyCh s) (readTimer s)
           (readTimedOut s) (writeTimer s) (writeTimedOut s) x (recvLock s).
Definition set_recvLock (x : bool) (s : Stream) : Stream :=
  mkStream (recvWindow s) (sendWindow s) (id s) (session s) (state s)
           (recvBuf s) (recvNotifyCh s) (sendNotifyCh s) (readTimer s)
           (readTimedOut s) (writeTimer s) (writeTimedOut s)
           (runtimeTimers s) x.

(** ** The session, as the stream uses it *)

(** [s.session.waitForSendErr(hdr, body, errCh)]: the frame is handed to the
    session's send path, and the session answers with an error or [nil]. *)
Definition waitForSendErr (hdr : header) (body : option (list Byte.byte))
    (s : Stream) : option error * Stream :=
  let c := session s in
  (waitErr c (length (sent c)),
   set_session (set_sent (sent c ++ [mkFrame hdr body]) c) s).

Definition establishStream (s : Stream) : Stream :=
  let c := session s in
  set_session (set_established (established c ++ [id s]) c) s.

Definition closeStream (s : Stream) : Stream :=
  let c := session s in
  set_session (set_closedStreams (closedStreams c ++ [id s]) c) s.

Definition logPrintf (e : logEntry) (s : Stream) : Stream :=
  let c := session s in
  set_session (set_logged (logged c ++ [e]) c) s.

(** ** newStream *)

Definition newStream (c : Session) (i : Z) (st : streamState) : Stream :=
  mkStream initialStreamWindow initialStreamWindow i c st None
           false false None 0 None 0 [] false.

(** ** Notification *)

(** [asyncNotify(ch)]: a send that does not block; the slot is full after. *)
Definition asyncNotifyRecv (s : Stream) : Stream := set_recvNotifyCh true s.
Definition asyncNotifySend (s : Stream) : Stream := set_sendNotifyCh true s.

Definition notifyWaiting (s : Stream) : Stream :=
  asyncNotifySend (asyncNotifyRecv s).

(** ** Timed-out flags *)

Definition isReadTimedOut (s : Stream) : bool := negb (readTimedOut s =? 0).
Definition setReadTimedOut (timedOut : bool) (s : Stream) : Stream :=
  if timedOut then set_readTimedOut 1 s else set_readTimedOut 0 s.
Definition isWriteTimedOut (s : Stream) : bool := negb (writeTimedOut s =? 0).
Definition setWriteTimedOut (timedOut : bool) (s : Stream) : Stream :=
  if timedOut then set_writeTimedOut 1 s else set_writeTimedOut 0 s.

(** ** sendFlags *)

Definition sendFlags (s : Stream) : Z * Stream :=
  match state s with
  | streamInit => (Z.lor 0 flagSYN, set_state streamSYNSent s)
  | streamSYNReceived => (Z.lor 0 flagACK, set_state streamEstablished s)
  | _ => (0, s)
  end.

(** The flags [sendFlags] has to piggyback are not zero exactly in Init and
    in SYNReceived. *)
Definition mustPiggyback (s : Stream) : bool :=
  match state s with
  | streamInit | streamSYNReceived => true
  | _ => false
  end.

(** ** processFlags *)

(** [flags&f == f]. *)
Definition hasFlag (flags f : Z) : bool := Z.land flags f =? f.

(** The deferred function runs on every return; it calls [closeStream] when
    the local [closeStream] is set. *)
Definition processFlags_deferred (closeIt : bool) (s : Stream) : Stream :=
  if closeIt then closeStream s else s.

Definition processFlags (flags : Z) (s : Stream) : option error * Stream :=
  let s1 :=
    if hasFlag flags flagACK then
      establishStream
        (match state s with
         | streamSYNSent => set_state streamEstablished s
         | _ => s
         end)
    else s in
  let fin : option error * (bool * Stream) :=
    if hasFlag flags flagFIN then
      match state s1 with
      | streamSYNSent | streamSYNReceived | streamEstablished =>
          (None, (false, notifyWaiting (set_state streamRemoteClose s1)))
      | streamLocalClose =>
          (None, (true, notifyWaiting (set_state streamClosed s1)))
      | _ =>
          (Some ErrUnexpectedFlag,
           (false, logPrintf (LogUnexpectedFIN (state s1)) s1))
      end
    else (None, (false, s1)) in
  match fin with
  | (Some e, (closeIt, s2)) => (Some e, processFlags_deferred closeIt s2)
  | (None, (closeIt, s2)) =>
      if hasFlag flags flagRST then
        (None, processFlags_deferred true
                 (notifyWaiting (set_state streamReset s2)))
      else (None, processFlags_deferred closeIt s2)
  end.

(** ** sendWindowUpdate *)

(** [uint32(s.recvBuf.Len())], and 0 while the buffer is nil. *)
Definition bufLen (s : Stream) : Z :=
  match recvBuf s with
  | Some buf => uint32_of_len buf
  | None => 0
  end.

(** [delta := (max - bufLen) - s.recvWindow], in [uint32]. *)
Definition windowDelta (s : Stream) : Z :=
  sub32 (sub32 (MaxStreamWindowSize (session s)) (bufLen s)) (recvWindow s).

Definition sendWindowUpdate (s : Stream) : option error * Stream :=
  let max := MaxStreamWindowSize (session s) in
  let delta := windowDelta s in
  let (flags, s1) := sendFlags s in
  if (delta <? max / 2) && (flags =? 0) then (None, s1)
  else
    let s2 := set_recvWindow (add32 (recvWindow s1) delta) s1 in
    waitForSendErr (encode typeWindowUpdate flags (id s2) delta) None s2.

(** ** sendClose, Close, forceClose *)

Definition sendClose (s : Stream) : option error * Stream :=
  let (flags, s1) := sendFlags s in
  let flags := Z.lor flags flagFIN in
  waitForSendErr (encode typeWindowUpdate flags (id s1) 0) None s1.

(** What a call of [Close] does: it returns an error value, or it panics. *)
Inductive CloseResult : Type :=
| CloseReturn (err : option error)
| ClosePanic.

(** The code after the label [SEND_CLOSE]; the result of [sendClose] is
    dropped. *)
Definition Close_SEND_CLOSE (closeIt : bool) (s : Stream)
    : CloseResult * Stream :=
  let s1 := snd (sendClose s) in
  let s2 := notifyWaiting s1 in
  (CloseReturn None, if closeIt then closeStream s2 else s2).

Definition Close (s : Stream) : CloseResult * Stream :=
  match state s with
  | streamSYNSent | streamSYNReceived | streamEstablished =>
      Close_SEND_CLOSE false (set_state streamLocalClose s)
  | streamLocalClose => (CloseReturn None, s)
  | streamRemoteClose =>
      Close_SEND_CLOSE true (set_state streamClosed s)
  | streamClosed => (CloseReturn None, s)
  | streamReset => (CloseReturn None, s)
  | streamInit => (ClosePanic, s)
  end.

Definition forceClose (s : Stream) : Stream :=
  notifyWaiting (set_state streamClosed s).

(** ** incrSendWindow *)

Definition incrSendWindow (hdr : header) (flags : Z) (s : Stream)
    : option error * Stream :=
  match processFlags flags s with
  | (Some e, s1) => (Some e, s1)
  | (None, s1) =>
      (None, asyncNotifySend (set_sendWindow (add32 (sendWindow s1) (Length hdr)) s1))
  end.

(** ** readData *)

(** The transport as [readData] sees it: the bytes it can still deliver, and
    what it reports once they are used up ([None] is a clean end of input). *)
Record Conn : Type := mkConn {
  avail : list Byte.byte;
  failure : option error
}.

(** [io.Copy(dst, &io.LimitedReader{R: conn, N: int64(length)})]: the bytes
    that reach [dst], and the error of the copy.  The copy stops without an
    error after [length] bytes; when the transport runs dry before that, the
    copy ends with the transport's own report. *)
Definition copyLimited (conn : Conn) (length : Z) : list Byte.byte * option error :=
  (firstn (Z.to_nat length) (avail conn),
   if Z.of_nat (List.length (avail conn)) <? length then failure conn else None).

Definition bufBytes (s : Stream) : list Byte.byte :=
  match recvBuf s with
  | Some buf => buf
  | None => []
  end.

(** [readData] takes [recvLock] before it compares the length with the
    window.  The return with RecvWindowExceeded has no [Unlock]: the lock is
    still held when the call is over.  The other returns unlock.  What
    [readData], [sendWindowUpdate] and [Shrink] give here is what they give
    on a stream whose [recvLock] is free; [Read] is the call that meets a
    lock left behind. *)
Definition readData (hdr : header) (flags : Z) (conn : Conn) (s : Stream)
    : option error * Stream :=
  match processFlags flags s with
  | (Some e, s1) => (Some e, s1)
  | (None, s1) =>
      let length := Length hdr in
      if length =? 0 then (None, s1)
      else if recvWindow s1 <? length then
        (Some ErrRecvWindowExceeded,
         set_recvLock true
           (logPrintf (LogRecvWindowExceeded (id s1) (recvWindow s1) length)
              s1))
      else
        let (copied, cerr) := copyLimited conn length in
        let s2 := set_recvBuf (Some (bufBytes s1 ++ copied)) s1 in
        match cerr with
        | Some e => (Some e, logPrintf (LogReadFailed e) s2)
        | None =>
            (None,
             asyncNotifyRecv (set_recvWindow (sub32 (recvWindow s2) length) s2))
        end
  end.

(** ** Shrink *)

Definition Shrink (s : Stream) : Stream :=
  match recvBuf s with
  | Some [] => set_recvBuf None s
  | _ => s
  end.

(** ** Read *)

(** A call of [Read] hands bytes and an error value back ([n] is the number
    of bytes), or it parks in its [select], or it waits in
    [s.recvLock.Lock()] for a lock that no call will release. *)
Inductive ReadResult : Type :=
| ReadReturn (data : list Byte.byte) (err : option error)
| ReadBlocked
| ReadDeadlock.

(** [defer asyncNotify(s.recvNotifyCh)] runs when [Read] returns, not while
    it is parked. *)
Definition Read_deferred (r : ReadResult * Stream) : ReadResult * Stream :=
  match r with
  | (ReadReturn data err, s) => (ReadReturn data err, asyncNotifyRecv s)
  | (ReadBlocked, s) => (ReadBlocked, s)
  | (ReadDeadlock, s) => (ReadDeadlock, s)
  end.

(** The second half of the loop body: with bytes in the buffer, they are
    read and a window update is considered; with none, the [select] takes a
    pending notification and the next round, which finds the same stream,
    parks: the slot is empty afterwards. *)
Definition Read_buffered (blen : nat) (s : Stream) : ReadResult * Stream :=
  if recvLock s then (ReadDeadlock, s)
  else
    match recvBuf s with
    | None | Some [] => (ReadBlocked, set_recvNotifyCh false s)
    | Some buf =>
        let s1 := set_recvBuf (Some (skipn blen buf)) s in
        let (err, s2) := sendWindowUpdate s1 in
        (ReadReturn (firstn blen buf) err, s2)
    end.

(** The body of the [for] loop, run until it returns, parks or waits for
    [recvLock]: the lock is taken inside the state switch for the three
    closed states, and after it otherwise; in Reset the call returns before
    it comes to the lock. *)
Definition Read_loop (blen : nat) (s : Stream) : ReadResult * Stream :=
  match state s with
  | streamLocalClose | streamRemoteClose | streamClosed =>
      if recvLock s then (ReadDeadlock, s)
      else
        match recvBuf s with
        | None | Some [] => (ReadReturn [] (Some EOF), s)
        | Some _ => Read_buffered blen s
        end
  | streamReset => (ReadReturn [] (Some ErrConnectionReset), s)
  | _ => Read_buffered blen s
  end.

(** [Read(b)] with [len(b) = blen]. *)
Definition Read (blen : nat) (s : Stream) : ReadResult * Stream :=
  Read_deferred
    (if isReadTimedOut s then (ReadReturn [] (Some timeoutError), s)
     else Read_loop blen s).

(** A parked [Read] is woken: by the closed [timeout] channel of its
    observer, or by a notification, which sends it round the loop again. *)
Definition Read_wake (byTimeout : bool) (blen : nat) (s : Stream)
    : ReadResult * Stream :=
  Read_deferred
    (if byTimeout then (ReadReturn [] (Some ErrTimeout), s)
     else Read_loop blen (set_recvNotifyCh false s)).

(** ** write and Write *)

Inductive WriteResult : Type :=
| WriteReturn (n : Z) (err : option error)
| WriteBlocked.

Definition write_loop (b : list Byte.byte) (s : Stream) : WriteResult * Stream :=
  match state s with
  | streamLocalClose | streamClosed => (WriteReturn 0 (Some ErrStreamClosed), s)
  | streamReset => (WriteReturn 0 (Some ErrConnectionReset), s)
  | _ =>
      let window := sendWindow s in
      if negb (window =? 0) then
        let (flags, s1) := sendFlags s in
        let max := Z.min window (uint32_of_len b) in
        let body := firstn (Z.to_nat max) b in
        let (err, s2) :=
          waitForSendErr (encode typeData flags (id s1) max) (Some body) s1 in
        match err with
        | Some e => (WriteReturn 0 (Some e), s2)
        | None =>
            (WriteReturn max None,
             set_sendWindow (add32 (sendWindow s2) (not32 (sub32 max 1))) s2)
        end
      else (WriteBlocked, set_sendNotifyCh false s)
  end.

Definition write (b : list Byte.byte) (s : Stream) : WriteResult * Stream :=
  if isWriteTimedOut s then (WriteReturn 0 (Some timeoutError), s)
  else write_loop b s.

(** A parked [write] is woken: by the closed [timeout] channel, or by the
    notification, which the [select] takes out of the slot before the loop
    goes round again. *)
Definition write_wake (byTimeout : bool) (b : list Byte.byte) (s : Stream)
    : WriteResult * Stream :=
  if byTimeout then (WriteReturn 0 (Some ErrTimeout), s)
  else write_loop b (set_sendNotifyCh false s).

(** What a call of [Write] has done after at most [fuel] rounds of its loop:
    it returned, it is parked inside [write] with [total] bytes framed so
    far, or it is still running. *)
Inductive WriteOutcome : Type :=
| WriteDone (total : Z) (err : option error)
| WriteParked (total : Z)
| WriteRunning (total : Z).

Fixpoint Write_loop (fuel : nat) (total : Z) (b : list Byte.byte) (s : Stream)
    : WriteOutcome * Stream :=
  if total <? Z.of_nat (length b) then
    match fuel with
    | O => (WriteRunning total, s)
    | S fuel' =>
        match write (skipn (Z.to_nat total) b) s with
        | (WriteReturn n (Some e), s1) => (WriteDone (total + n) (Some e), s1)
        | (WriteReturn n None, s1) => Write_loop fuel' (total + n) b s1
        | (WriteBlocked, s1) => (WriteParked total, s1)
        end
    end
  else (WriteDone total None, s).

Definition Write (fuel : nat) (b : list Byte.byte) (s : Stream)
    : WriteOutcome * Stream :=
  Write_loop fuel 0 b s.

(** ** Deadlines *)

(** A [time.Time] is the number of nanoseconds since the zero instant, so
    that [t.IsZero()] is [t = 0]; a [time.Duration] is an [int64]. *)
Definition IsZero (t : Z) : bool := t =? 0.

Definition minDuration : Z := - 9223372036854775808.
Definition maxDuration : Z := 9223372036854775807.

(** [time.Until(t)] read at the instant [now]: the difference, kept inside
    the range of a [Duration]. *)
Definition Until (now t : Z) : Z :=
  Z.max minDuration (Z.min maxDuration (t - now)).

(** [timer.Stop()] on the timer at index [i]. *)
Definition stopTimer (i : nat) (timers : list Timer) : list Timer :=
  match nth_error timers i with
  | Some tm =>
      firstn i timers ++ mkTimer (fireAt tm) (sets tm) true (fired tm)
        :: skipn (S i) timers
  | None => timers
  end.

(** [time.AfterFunc(d, f)] called at [now]: the runtime holds one more timer,
    due at [now + d]; the result is the pointer to it. *)
Definition AfterFunc (now d : Z) (k : deadlineKind) (s : Stream) : nat * Stream :=
  (length (runtimeTimers s),
   set_runtimeTimers (runtimeTimers s ++ [mkTimer (now + d) k false false]) s).

Definition SetReadDeadline (now t : Z) (s : Stream) : option error * Stream :=
  let s1 := setReadTimedOut false s in
  let d := Until now t in
  let s2 :=
    if IsZero t || (d <? 0) then
      let s' :=
        match readTimer s1 with
        | Some i => set_runtimeTimers (stopTimer i (runtimeTimers s1)) s1
        | None => s1
        end in
      set_readTimer None s'
    else
      let (i, s') := AfterFunc now d ReadDeadline s1 in
      set_readTimer (Some i) s' in
  let s3 :=
    if negb (IsZero t) && (d <? 0) then setReadTimedOut true s2 else s2 in
  (None, s3).

Definition SetWriteDeadline (now t : Z) (s : Stream) : option error * Stream :=
  let s1 := setWriteTimedOut false s in
  let d := Until now t in
  let s2 :=
    if IsZero t || (d <? 0) then
      let s' :=
        match writeTimer s1 with
        | Some i => set_runtimeTimers (stopTimer i (runtimeTimers s1)) s1
        | None => s1
        end in
      set_writeTimer None s'
    else
      let (i, s') := AfterFunc now d WriteDeadline s1 in
      set_writeTimer (Some i) s' in
  let s3 :=
    if negb (IsZero t) && (d <? 0) then setWriteTimedOut true s2 else s2 in
  (None, s3).

Definition SetDeadline (now t : Z) (s : Stream) : option error * Stream :=
  match SetReadDeadline now t s with
  | (Some e, s1) => (Some e, s1)
  | (None, s1) =>
      match SetWriteDeadline now t s1 with
      | (Some e, s2) => (Some e, s2)
      | (None, s2) => (None, s2)
      end
  end.

(** The function a timer was created with: [s.setReadTimedOut(true)] or
    [s.setWriteTimedOut(true)]. *)
Definition timerFunc (k : deadlineKind) (s : Stream) : Stream :=
  match k with
  | ReadDeadline => setReadTimedOut true s
  | WriteDeadline => setWriteTimedOut true s
  end.

(** The runtime fires the timer at index [i] when it is due at [now] and was
    neither stopped nor fired before: the timer is spent and its function
    runs. *)
Definition fireTimer (now : Z) (i : nat) (s : Stream) : Stream :=
  match nth_error (runtimeTimers s) i with
  | Some tm =>
      if (fireAt tm <=? now) && negb (stopped tm) && negb (fired tm) then
        timerFunc (sets tm)
          (set_runtimeTimers
             (firstn i (runtimeTimers s)
                ++ mkTimer (fireAt tm) (sets tm) (stopped tm) true
                :: skipn (S i) (runtimeTimers s)) s)
      else s
  | None => s
  end.

(** The clock reaches [now]: every timer that is due fires. *)
Definition advanceTo (now : Z) (s : Stream) : Stream :=
  fold_left (fun s i => fireTimer now i s)
            (seq 0 (length (runtimeTimers s))) s.

(** ** Runs of a stream *)

(** One thing that happens to a stream: a call of the user, a call of the
    session, the wake of a parked call, or the passing of time. *)
Inductive op : Type :=
| OpRead (blen : nat)
| OpReadWake (byTimeout : bool) (blen : nat)
| OpWrite (fuel : nat) (b : list Byte.byte)
| OpWriteStep (b : list Byte.byte)
| OpWriteWake (byTimeout : bool) (b : list Byte.byte)
| OpClose
| OpForceClose
| OpProcessFlags (flags : Z)
| OpIncrSendWindow (hdr : header) (flags : Z)
| OpReadData (hdr : header) (flags : Z) (conn : Conn)
| OpSendWindowUpdate
| OpShrink
| OpSetDeadline (now t : Z)
| OpSetReadDeadline (now t : Z)
| OpSetWriteDeadline (now t : Z)
| OpAdvanceTo (now : Z).

(** What the outside sees of one step. *)
Inductive observation : Type :=
| ObsQuiet
| ObsDelivered (data : list Byte.byte)
| ObsIngested (data : list Byte.byte)
| ObsRefused (e : error)
| ObsPanic.

Definition observeRead (r : ReadResult * Stream) : observation * Stream :=
  match r with
  | (ReadReturn data _, s) => (ObsDelivered data, s)
  | (ReadBlocked, s) => (ObsQuiet, s)
  | (ReadDeadlock, s) => (ObsQuiet, s)
  end.

(** The bytes an accepted data frame puts into the buffer. *)
Definition ingestedBy (hdr : header) (conn : Conn) : list Byte.byte :=
  if Length hdr =? 0 then [] else fst (copyLimited conn (Length hdr)).

Definition step (o : op) (s : Stream) : observation * Stream :=
  match o with
  | OpRead blen => observeRead (Read blen s)
  | OpReadWake byTimeout blen => observeRead (Read_wake byTimeout blen s)
  | OpWrite fuel b => (ObsQuiet, snd (Write fuel b s))
  | OpWriteStep b => (ObsQuiet, snd (write b s))
  | OpWriteWake byTimeout b => (ObsQuiet, snd (write_wake byTimeout b s))
  | OpClose =>
      match Close s with
      | (CloseReturn _, s1) => (ObsQuiet, s1)
      | (ClosePanic, s1) => (ObsPanic, s1)
      end
  | OpForceClose => (ObsQuiet, forceClose s)
  | OpProcessFlags flags => (ObsQuiet, snd (processFlags flags s))
  | OpIncrSendWindow hdr flags => (ObsQuiet, snd (incrSendWindow hdr flags s))
  | OpReadData hdr flags conn =>
      match readData hdr flags conn s with
      | (None, s1) => (ObsIngested (ingestedBy hdr conn), s1)
      | (Some e, s1) => (ObsRefused e, s1)
      end
  | OpSendWindowUpdate => (ObsQuiet, snd (sendWindowUpdate s))
  | OpShrink => (ObsQuiet, Shrink s)
  | OpSetDeadline now t => (ObsQuiet, snd (SetDeadline now t s))
  | OpSetReadDeadline now t => (ObsQuiet, snd (SetReadDeadline now t s))
  | OpSetWriteDeadline now t => (ObsQuiet, snd (SetWriteDeadline now t s))
  | OpAdvanceTo now => (ObsQuiet, advanceTo now s)
  end.

(** A run: the steps in order; a panic ends it. *)
Fixpoint run (ops : list op) (s : Stream) : list observation * Stream :=
  match ops with
  | [] => ([], s)
  | o :: rest =>
      match step o s with
      | (ObsPanic, s1) => ([ObsPanic], s1)
      | (ob, s1) => let (obs, s2) := run rest s1 in (ob :: obs, s2)
      end
  end.



Definition isRefused (ob : observation) : bool :=
  match ob with
  | ObsRefused _ => true
  | _ => false
  end.

(** Every data frame of the run was accepted: no [readData] returned an
    error. *)
Definition allAccepted (obs : list observation) : bool :=
  forallb (fun ob => negb (isRefused ob)) obs.

(** The frames that carry FIN among those handed to the session. *)
Definition carriesFIN (f : frame) : bool := hasFlag (Flags (fhdr f)) flagFIN.

Definition finCount (s : Stream) : nat :=
  length (filter carriesFIN (sent (session s))).

(** ** Relations between the stream before and after a step *)

(** The states in which the local FIN has been sent, or will never be. *)
Definition finState (st : streamState) : bool :=
  match st with
  | streamLocalClose | streamClosed | streamReset => true
  | _ => false
  end.

(** A step that leaves the buffered bytes alone. *)
Definition keepsBuf (s s' : Stream) : Prop := bufBytes s' = bufBytes s.

(** A step that hands no FIN to the session and does not lead out of the
    states of [finState]. *)
Definition keepsFin (s s' : Stream) : Prop :=
  finCount s' = finCount s
  /\ (finState (state s) = true -> finState (state s') = true).

(** No FIN was sent, or one was and the state records it. *)
Definition finInvariant (s : Stream) : Prop :=
  finCount s = 0%nat
  \/ (finCount s = 1%nat /\ finState (state s) = true).

(** ** Concrete streams used by the examples *)

(** A session with the default window that accepts every frame. *)
Definition quietSession : Session :=
  mkSession 262144 (fun _ => None) [] [] [] [].

(** A transport holding the two bytes "hi". *)
Definition connHi : Conn := mkConn [Byte.x68; Byte.x69] None.

(** An established stream takes a two-byte data frame, is closed by the user,
    and then receives the peer's FIN: it is Closed with two bytes buffered. *)
Definition closedWithData : Stream :=
  snd (run [OpReadData (encode typeData 0 1 2) 0 connHi;
            OpClose;
            OpProcessFlags flagFIN]
           (newStream quietSession 1 streamEstablished)).

(** A transport that delivers the two bytes "hi" and then fails. *)
Definition connBroken : Conn :=
  mkConn [Byte.x68; Byte.x69] (Some (ErrSession 7)).

(** An established stream is sent a data frame of five bytes, of which the
    transport delivers two before it fails: [readData] returns the error of
    the transport, the two bytes stay buffered and the receive window is
    still the whole configured window. *)
Definition overdrawn : Stream :=
  snd (readData (encode typeData 0 1 5) 0 connBroken
         (newStream quietSession 1 streamEstablished)).

(** A buffer of 4 GiB, which a caller on a 64-bit platform can pass. *)
Definition fourGiB : list Byte.byte := repeat Byte.x00 (Z.to_nat 4294967296).

(** ** Measures of a run *)

(** How far a stream is in its life: a state is never followed by one of
    lower rank. *)
Definition rank (st : streamState) : nat :=
  match st with
  | streamInit => 0
  | streamSYNSent | streamSYNReceived => 1
  | streamEstablished => 2
  | streamLocalClose | streamRemoteClose => 3
  | streamClosed | streamReset => 4
  end.

Definition carriesSYN (f : frame) : bool := hasFlag (Flags (fhdr f)) flagSYN.
Definition carriesACK (f : frame) : bool := hasFlag (Flags (fhdr f)) flagACK.

Definition synCount (s : Stream) : nat :=
  length (filter carriesSYN (sent (session s))).
Definition ackCount (s : Stream) : nat :=
  length (filter carriesACK (sent (session s))).

(** While the stream is in Init or SYNReceived it has sent neither SYN nor
    ACK; afterwards it has sent at most one of them, once. *)
Definition handshakeInvariant (s : Stream) : Prop :=
  match state s with
  | streamInit | streamSYNReceived => synCount s = 0%nat /\ ackCount s = 0%nat
  | _ => (synCount s + ackCount s <= 1)%nat
  end.

(** A step that does not take the stream back in its life, keeps the
    handshake invariant, and leaves the identity of the stream and the
    configuration of the session alone. *)
Definition advances (s s' : Stream) : Prop :=
  (rank (state s) <= rank (state s'))%nat
  /\ (handshakeInvariant s -> handshakeInvariant s')
  /\ MaxStreamWindowSize (session s') = MaxStreamWindowSize (session s)
  /\ id s' = id s.

(** A step that leaves the receive side alone. *)
Definition keepsRecv (s s' : Stream) : Prop :=
  recvWindow s' = recvWindow s
  /\ bufBytes s' = bufBytes s
  /\ MaxStreamWindowSize (session s') = MaxStreamWindowSize (session s).

(** The credit the peer holds and the bytes it has used up never exceed the
    configured window. *)
Definition recvInvariant (s : Stream) : Prop :=
  0 <= recvWindow s
  /\ Z.of_nat (length (bufBytes s)) + recvWindow s
     <= MaxStreamWindowSize (session s)
  /\ MaxStreamWindowSize (session s) < 4294967296.

(** The states in which the user may still write. *)
Definition writable (st : streamState) : bool := negb (finState st).


(** The bytes of the data frames handed to the session, in order. *)
Definition frameData (f : frame) : list Byte.byte :=
  match MsgType (fhdr f), fbody f with
  | typeData, Some body => body
  | _, _ => []
  end.

Definition dataBytes (s : Stream) : list Byte.byte :=
  flat_map frameData (sent (session s)).

(** The number of bytes a call of [Write] has accounted for. *)
Definition WriteOutcome_total (r : WriteOutcome) : Z :=
  match r with
  | WriteDone total _ | WriteParked total | WriteRunning total => total
  end.

(** The stream after a step of [write] that framed [n] bytes of [b]. *)
Definition afterFrame (n : Z) (b : list Byte.byte) (s : Stream) : Stream :=
  let s1 := snd (sendFlags s) in
  let s2 :=
    snd (waitForSendErr (encode typeData (fst (sendFlags s)) (id s1) n)
           (Some (firstn (Z.to_nat n) b)) s1) in
  set_sendWindow (sendWindow s - n) s2.

(** The length field of a header is a [uint32]; a step is well formed when
    the header it carries is. *)
Definition isUint32 (z : Z) : bool := (0 <=? z) && (z <? 4294967296).

Definition opWellFormed (o : op) : bool :=
  match o with
  | OpIncrSendWindow hdr _ | OpReadData hdr _ _ => isUint32 (Length hdr)
  | _ => true
  end.

(** * Properties *)

(** ** Arithmetic of the fixed-width operations *)

Lemma wrap32_small (z : Z) : 0 <= z < 4294967296 -> wrap32 z = z.
Proof. intros H. unfold wrap32. apply Z.mod_small. exact H. Qed.

(** Adding [^uint32(n-1)] takes [n] away, whenever [n] does not exceed the
    value it is taken from. *)
Lemma add32_not32_pred (w n : Z) :
  0 <= n <= w -> w < 4294967296 ->
  add32 w (not32 (sub32 n 1)) = w - n.
Proof.
  intros Hn Hw. unfold add32, not32, sub32, wrap32, Z.lnot.
  destruct (Z.eq_dec n 0) as [-> | Hne].
  - change ((0 - 1) mod 4294967296) with 4294967295.
    change (Z.pred (- 4294967295) mod 4294967296) with 0.
    rewrite Z.add_0_r, Z.sub_0_r. apply Z.mod_small. lia.
  - rewrite (Z.mod_small (n - 1)) by lia.
    replace (Z.pred (- (n - 1))) with (- n) by lia.
    rewrite Zplus_mod_idemp_r.
    replace (w + - n) with (w - n) by lia.
    apply Z.mod_small. lia.
Qed.

Lemma sub32_sub32 (a b c : Z) : sub32 (sub32 a b) c = wrap32 (a - b - c).
Proof. unfold sub32, wrap32. apply Zminus_mod_idemp_l. Qed.

(** ** C1: an inbound ACK *)

(** C1, as the specification has it, fails: an established stream is not what
    an ACK makes of a stream in state Init.  Here the stream is in Init, the
    flags are exactly ACK, and the state after [processFlags] is still Init. *)
Lemma processFlags_ACK_Init_stays_Init :
  state (newStream quietSession 1 streamInit) = streamInit
  /\ hasFlag flagACK flagACK = true
  /\ fst (processFlags flagACK (newStream quietSession 1 streamInit)) = None
  /\ state (snd (processFlags flagACK (newStream quietSession 1 streamInit)))
     = streamInit
  /\ state (snd (processFlags flagACK (newStream quietSession 1 streamInit)))
     <> streamEstablished.
Proof. repeat split; try reflexivity. discriminate. Qed.

(** C1, amended: when the flags carry ACK, [processFlags] notifies the
    session of establishment; a stream in Init stays in Init (it goes to Reset
    when the frame also carries RST and no FIN) and never becomes
    Established; it is from SYNSent that the ACK leads to Established, and
    from no other state: a stream that is Established afterwards was in
    SYNSent, or was Established already. *)
Theorem processFlags_ACK (s : Stream) (flags : Z) :
  hasFlag flags flagACK = true ->
  established (session (snd (processFlags flags s)))
    = established (session s) ++ [id s]
  /\ (state s = streamInit ->
      state (snd (processFlags flags s))
        = (if hasFlag flags flagRST && negb (hasFlag flags flagFIN)
           then streamReset else streamInit)
      /\ state (snd (processFlags flags s)) <> streamEstablished)
  /\ (state s = streamSYNSent ->
      hasFlag flags flagFIN = false -> hasFlag flags flagRST = false ->
      processFlags flags s
        = (None, establishStream (set_state streamEstablished s)))
  /\ (state (snd (processFlags flags s)) = streamEstablished ->
      state s = streamSYNSent \/ state s = streamEstablished).
Proof.
  intros Hack. unfold processFlags. rewrite Hack.
  destruct s as [rw sw i c st rb rn sn rt rto wt wto tm lk].
  split; [| split; [| split]].
  - destruct (hasFlag flags flagFIN), (hasFlag flags flagRST), st;
      reflexivity.
  - intros H. simpl in H; subst st.
    destruct (hasFlag flags flagFIN), (hasFlag flags flagRST);
      split; try reflexivity; simpl; discriminate.
  - simpl. intros -> -> ->. reflexivity.
  - destruct (hasFlag flags flagFIN), (hasFlag flags flagRST), st;
      simpl; intros H; try discriminate; auto.
Qed.

Lemma processFlags_ACK_witness :
  hasFlag flagACK flagACK = true
  /\ established
       (session (snd (processFlags flagACK (newStream quietSession 7 streamInit))))
     = [7]
  /\ state (snd (processFlags flagACK (newStream quietSession 7 streamInit)))
     = streamInit.
Proof.
  pose proof (processFlags_ACK (newStream quietSession 7 streamInit) flagACK
                eq_refl) as [He [Hi _]].
  split; [reflexivity | split].
  - exact He.
  - exact (proj1 (Hi eq_refl)).
Defined.

(** ** What each method leaves alone *)

Lemma keepsBuf_refl (s : Stream) : keepsBuf s s.
Proof. reflexivity. Qed.

Lemma keepsBuf_trans (a b c : Stream) :
  keepsBuf a b -> keepsBuf b c -> keepsBuf a c.
Proof. unfold keepsBuf. congruence. Qed.

Lemma keepsFin_refl (s : Stream) : keepsFin s s.
Proof. split; auto. Qed.

Lemma keepsFin_trans (a b c : Stream) :
  keepsFin a b -> keepsFin b c -> keepsFin a c.
Proof. unfold keepsFin. intros [H1 H2] [H3 H4]. split; [congruence | auto]. Qed.

Lemma finCount_snoc (l : list frame) (f : frame) :
  length (filter carriesFIN (l ++ [f]))
  = (length (filter carriesFIN l) + (if carriesFIN f then 1 else 0))%nat.
Proof.
  rewrite filter_app, length_app. simpl. destruct (carriesFIN f); reflexivity.
Qed.

(** Case analysis on a stream whose fields are laid out. *)
Ltac lay_out s :=
  destruct s as [rw sw i [mx we snt est cls lg] st rb rn sn rt rto wt wto tm
                 lk].

Ltac settle_keeps :=
  unfold keepsBuf, keepsFin, finCount, bufBytes; simpl;
  rewrite ?finCount_snoc; simpl;
  repeat split; auto; try lia; try discriminate.

Lemma sendFlags_keeps (s : Stream) :
  keepsBuf s (snd (sendFlags s)) /\ keepsFin s (snd (sendFlags s))
  /\ hasFlag (fst (sendFlags s)) flagFIN = false
  /\ hasFlag (Z.lor (fst (sendFlags s)) flagFIN) flagFIN = true.
Proof.
  lay_out s. unfold sendFlags. destruct st; settle_keeps.
Qed.

Lemma processFlags_keeps (flags : Z) (s : Stream) :
  keepsBuf s (snd (processFlags flags s))
  /\ keepsFin s (snd (processFlags flags s))
  /\ recvWindow (snd (processFlags flags s)) = recvWindow s.
Proof.
  lay_out s. unfold processFlags.
  destruct (hasFlag flags flagACK), (hasFlag flags flagFIN),
    (hasFlag flags flagRST), st; settle_keeps.
Qed.

Lemma sendWindowUpdate_keeps (s : Stream) :
  keepsFin s (snd (sendWindowUpdate s))
  /\ recvBuf (snd (sendWindowUpdate s)) = recvBuf s.
Proof.
  lay_out s. unfold sendWindowUpdate, windowDelta, sendFlags. simpl.
  destruct st; simpl;
    match goal with
    | |- context [if ?c then _ else _] => destruct c
    end; settle_keeps.
Qed.

Lemma write_loop_keeps (b : list Byte.byte) (s : Stream) :
  keepsBuf s (snd (write_loop b s)) /\ keepsFin s (snd (write_loop b s)).
Proof.
  lay_out s. unfold write_loop, sendFlags, waitForSendErr. simpl.
  destruct st; simpl; try (destruct (sw =? 0); simpl);
    try match goal with
        | |- context [we ?n] => destruct (we n)
        end; settle_keeps.
Qed.

Lemma write_keeps (b : list Byte.byte) (s : Stream) :
  keepsBuf s (snd (write b s)) /\ keepsFin s (snd (write b s)).
Proof.
  unfold write. destruct (isWriteTimedOut s).
  - split; [apply keepsBuf_refl | apply keepsFin_refl].
  - apply write_loop_keeps.
Qed.

Lemma write_wake_keeps (byTimeout : bool) (b : list Byte.byte) (s : Stream) :
  keepsBuf s (snd (write_wake byTimeout b s))
  /\ keepsFin s (snd (write_wake byTimeout b s)).
Proof.
  unfold write_wake. destruct byTimeout.
  - split; [apply keepsBuf_refl | apply keepsFin_refl].
  - destruct (write_loop_keeps b (set_sendNotifyCh false s)) as [Hb Hf].
    split; [eapply keepsBuf_trans; [| exact Hb]
           | eapply keepsFin_trans; [| exact Hf]];
      lay_out s; settle_keeps.
Qed.

Lemma Write_loop_keeps (fuel : nat) (b : list Byte.byte) :
  forall (total : Z) (s : Stream),
    keepsBuf s (snd (Write_loop fuel total b s))
    /\ keepsFin s (snd (Write_loop fuel total b s)).
Proof.
  induction fuel as [| fuel IH]; intros total s; simpl;
    destruct (total <? Z.of_nat (length b));
    try (split; [apply keepsBuf_refl | apply keepsFin_refl]).
  pose proof (write_keeps (skipn (Z.to_nat total) b) s) as [Hb Hf].
  destruct (write (skipn (Z.to_nat total) b) s) as [[n [e |] |] s1];
    simpl in *; try (split; assumption).
  destruct (IH (total + n) s1) as [Hb' Hf'].
  split; [eapply keepsBuf_trans | eapply keepsFin_trans]; eassumption.
Qed.

Lemma forceClose_keeps (s : Stream) :
  keepsBuf s (forceClose s) /\ keepsFin s (forceClose s).
Proof. lay_out s. unfold forceClose. settle_keeps. Qed.

Lemma incrSendWindow_keeps (hdr : header) (flags : Z) (s : Stream) :
  keepsBuf s (snd (incrSendWindow hdr flags s))
  /\ keepsFin s (snd (incrSendWindow hdr flags s)).
Proof.
  unfold incrSendWindow.
  pose proof (processFlags_keeps flags s) as [Hb [Hf _]].
  destruct (processFlags flags s) as [[e |] s1]; simpl in *.
  - split; assumption.
  - split; [eapply keepsBuf_trans | eapply keepsFin_trans]; try eassumption;
      lay_out s1; settle_keeps.
Qed.

Lemma Shrink_keeps (s : Stream) :
  keepsBuf s (Shrink s) /\ keepsFin s (Shrink s).
Proof.
  lay_out s. unfold Shrink. simpl. destruct rb as [[| x l] |]; settle_keeps.
Qed.


Lemma Close_finInvariant (s : Stream) :
  finInvariant s -> finInvariant (snd (Close s)).
Proof.
  unfold finInvariant. lay_out s.
  unfold Close, Close_SEND_CLOSE, sendClose, finCount. simpl.
  intros [H0 | [H1 Hst]]; destruct st; simpl in *;
    rewrite ?finCount_snoc; simpl; try discriminate; auto;
    right; split; auto; lia.
Qed.

Lemma keepsFin_finInvariant (s s' : Stream) :
  keepsFin s s' -> finInvariant s -> finInvariant s'.
Proof.
  unfold keepsFin, finInvariant. intros [Hc Hs] [H0 | [H1 Hst]].
  - left. congruence.
  - right. split; [congruence | auto].
Qed.

Lemma Read_buffered_keepsFin (blen : nat) (s : Stream) :
  keepsFin s (snd (Read_buffered blen s)).
Proof.
  unfold Read_buffered.
  destruct (recvLock s); [apply keepsFin_refl |].
  destruct (recvBuf s) as [[| x l] |] eqn:Hrb.
  - lay_out s. settle_keeps.
  - cbv zeta.
    pose proof (sendWindowUpdate_keeps
                  (set_recvBuf (Some (skipn blen (x :: l))) s)) as [Hf _].
    destruct (sendWindowUpdate (set_recvBuf (Some (skipn blen (x :: l))) s))
      as [err s2]. simpl in *.
    eapply keepsFin_trans; [| exact Hf]. lay_out s. settle_keeps.
  - lay_out s. settle_keeps.
Qed.

Lemma Read_loop_keepsFin (blen : nat) (s : Stream) :
  keepsFin s (snd (Read_loop blen s)).
Proof.
  unfold Read_loop.
  destruct (state s); try apply Read_buffered_keepsFin;
    try apply keepsFin_refl;
    (destruct (recvLock s); [apply keepsFin_refl |]);
    destruct (recvBuf s) as [[| x l] |];
    try apply Read_buffered_keepsFin; apply keepsFin_refl.
Qed.

Lemma Read_deferred_keepsFin (s : Stream) (r : ReadResult * Stream) :
  keepsFin s (snd r) -> keepsFin s (snd (Read_deferred r)).
Proof.
  destruct r as [[data err | |] s1]; simpl; auto.
Qed.

Lemma Read_keepsFin (blen : nat) (s : Stream) :
  keepsFin s (snd (Read blen s)).
Proof.
  unfold Read. apply Read_deferred_keepsFin.
  destruct (isReadTimedOut s);
    [apply keepsFin_refl | apply Read_loop_keepsFin].
Qed.

Lemma Read_wake_keepsFin (byTimeout : bool) (blen : nat) (s : Stream) :
  keepsFin s (snd (Read_wake byTimeout blen s)).
Proof.
  unfold Read_wake. apply Read_deferred_keepsFin.
  destruct byTimeout; [apply keepsFin_refl |].
  eapply keepsFin_trans; [| apply Read_loop_keepsFin].
  lay_out s. settle_keeps.
Qed.

Lemma readData_keepsFin (hdr : header) (flags : Z) (conn : Conn) (s : Stream) :
  keepsFin s (snd (readData hdr flags conn s)).
Proof.
  unfold readData.
  pose proof (processFlags_keeps flags s) as [_ [Hf _]].
  destruct (processFlags flags s) as [[e |] s1]; simpl in *; auto.
  eapply keepsFin_trans; [exact Hf |].
  destruct (Length hdr =? 0); [apply keepsFin_refl |].
  destruct (recvWindow s1 <? Length hdr); [lay_out s1; settle_keeps |].
  unfold copyLimited.
  destruct (Z.of_nat (length (avail conn)) <? Length hdr);
    [destruct (failure conn) |]; lay_out s1; settle_keeps.
Qed.




Lemma observeRead_snd (r : ReadResult * Stream) :
  snd (observeRead r) = snd r.
Proof. destruct r as [[data err | |] s]; reflexivity. Qed.




(** ** Deadlines and timers leave the rest of the stream alone *)

Lemma SetReadDeadline_keeps (now t : Z) (s : Stream) :
  keepsBuf s (snd (SetReadDeadline now t s))
  /\ keepsFin s (snd (SetReadDeadline now t s)).
Proof.
  lay_out s. unfold SetReadDeadline, AfterFunc. simpl.
  destruct (IsZero t), (Until now t <? 0), rt; settle_keeps.
Qed.

Lemma SetWriteDeadline_keeps (now t : Z) (s : Stream) :
  keepsBuf s (snd (SetWriteDeadline now t s))
  /\ keepsFin s (snd (SetWriteDeadline now t s)).
Proof.
  lay_out s. unfold SetWriteDeadline, AfterFunc. simpl.
  destruct (IsZero t), (Until now t <? 0), wt; settle_keeps.
Qed.

Lemma SetDeadline_keeps (now t : Z) (s : Stream) :
  keepsBuf s (snd (SetDeadline now t s))
  /\ keepsFin s (snd (SetDeadline now t s)).
Proof.
  unfold SetDeadline.
  pose proof (SetReadDeadline_keeps now t s) as [Hb Hf].
  destruct (SetReadDeadline now t s) as [[e |] s1]; cbn [snd] in *;
    [split; assumption |].
  pose proof (SetWriteDeadline_keeps now t s1) as [Hb' Hf'].
  destruct (SetWriteDeadline now t s1) as [[e |] s2]; cbn [snd] in *;
    (split; [eapply keepsBuf_trans | eapply keepsFin_trans]; eassumption).
Qed.

Lemma fireTimer_keeps (now : Z) (n : nat) (s : Stream) :
  keepsBuf s (fireTimer now n s) /\ keepsFin s (fireTimer now n s).
Proof.
  lay_out s. unfold fireTimer. simpl.
  destruct (nth_error tm n) as [[at_ k st0 fd] |]; simpl;
    [| settle_keeps].
  destruct ((at_ <=? now) && negb st0 && negb fd); [| settle_keeps].
  destruct k; settle_keeps.
Qed.

Lemma fireTimers_keeps (now : Z) (l : list nat) :
  forall s : Stream,
    keepsBuf s (fold_left (fun s i => fireTimer now i s) l s)
    /\ keepsFin s (fold_left (fun s i => fireTimer now i s) l s).
Proof.
  induction l as [| i l IH]; intros s; simpl.
  - split; [apply keepsBuf_refl | apply keepsFin_refl].
  - destruct (fireTimer_keeps now i s) as [Hb Hf].
    destruct (IH (fireTimer now i s)) as [Hb' Hf'].
    split; [eapply keepsBuf_trans | eapply keepsFin_trans]; eassumption.
Qed.

Lemma advanceTo_keeps (now : Z) (s : Stream) :
  keepsBuf s (advanceTo now s) /\ keepsFin s (advanceTo now s).
Proof. unfold advanceTo. apply fireTimers_keeps. Qed.

(** ** Steps and runs *)

Lemma step_finInvariant (o : op) (s : Stream) :
  finInvariant s -> finInvariant (snd (step o s)).
Proof.
  intros Hinv.
  destruct o; simpl;
    try (pose proof (Close_finInvariant s Hinv) as H;
         destruct (Close s) as [[err |] s1]; exact H);
    (eapply keepsFin_finInvariant; [| exact Hinv]).
  - rewrite observeRead_snd. apply Read_keepsFin.
  - rewrite observeRead_snd. apply Read_wake_keepsFin.
  - apply Write_loop_keeps.
  - apply write_keeps.
  - apply write_wake_keeps.
  - apply forceClose_keeps.
  - apply processFlags_keeps.
  - apply incrSendWindow_keeps.
  - pose proof (readData_keepsFin hdr flags conn s) as H.
    destruct (readData hdr flags conn s) as [[e |] s1]; exact H.
  - apply sendWindowUpdate_keeps.
  - apply Shrink_keeps.
  - apply SetDeadline_keeps.
  - apply SetReadDeadline_keeps.
  - apply SetWriteDeadline_keeps.
  - apply advanceTo_keeps.
Qed.

Lemma run_finInvariant (ops : list op) :
  forall s : Stream, finInvariant s -> finInvariant (snd (run ops s)).
Proof.
  induction ops as [| o ops IH]; intros s Hinv; simpl; [exact Hinv |].
  pose proof (step_finInvariant o s Hinv) as H1.
  destruct (step o s) as [ob s1]. simpl in H1.
  specialize (IH s1 H1).
  destruct (run ops s1) as [obs s2]. simpl in IH.
  destruct ob; simpl; assumption.
Qed.




(** ** C4: the bytes read are the bytes received *)




(** ** C8 and C9: Close *)

(** C8: [Close] on a stream in LocalClose changes nothing, hands no frame to
    the session and returns nil; and in every run of a stream created with
    no FIN on record, at most one frame carrying FIN is ever handed to the
    session. *)
Theorem Close_LocalClose_noop (s : Stream) :
  (state s = streamLocalClose -> Close s = (CloseReturn None, s))
  /\ (forall (ops : list op) (c : Session) (i : Z) (st : streamState),
        finCount (newStream c i st) = 0%nat ->
        (finCount (snd (run ops (newStream c i st))) <= 1)%nat).
Proof.
  split.
  - intros H. unfold Close. rewrite H. reflexivity.
  - intros ops c i st H0.
    destruct (run_finInvariant ops (newStream c i st) (or_introl H0))
      as [H | [H _]]; rewrite H; auto.
Qed.

Lemma Close_LocalClose_noop_witness :
  Close (newStream quietSession 1 streamLocalClose)
  = (CloseReturn None, newStream quietSession 1 streamLocalClose)
  /\ (finCount
        (snd (run [OpClose; OpClose; OpProcessFlags flagFIN; OpClose]
                  (newStream quietSession 1 streamEstablished))) <= 1)%nat.
Proof.
  pose proof (Close_LocalClose_noop (newStream quietSession 1 streamLocalClose))
    as [H1 H2].
  split.
  - exact (H1 eq_refl).
  - exact (H2 [OpClose; OpClose; OpProcessFlags flagFIN; OpClose]
              quietSession 1 streamEstablished eq_refl).
Defined.

(** C9: [Close] panics exactly when the stream is in Init, and leaves the
    stream as it was; so [Close] on a stream that was created in Init and
    has done nothing since panics. *)
Theorem Close_panics_in_Init (s : Stream) :
  (fst (Close s) = ClosePanic <-> state s = streamInit)
  /\ (forall (c : Session) (i : Z),
        Close (newStream c i streamInit)
        = (ClosePanic, newStream c i streamInit)).
Proof.
  split; [| reflexivity].
  unfold Close, Close_SEND_CLOSE.
  destruct (state s); simpl; split; intros H; try discriminate; reflexivity.
Qed.

(** ** C10: the empty Write *)

(** C10: in every state, and whatever the deadline, [Write] with an empty
    buffer returns (0, nil); the stream is as before, so no frame was handed
    to the session and the state was not looked at. *)
Theorem Write_empty (fuel : nat) (s : Stream) :
  Write fuel [] s = (WriteDone 0 None, s)
  /\ sent (session (snd (Write fuel [] s))) = sent (session s)
  /\ (forall (b : list Byte.byte) (total : Z) (e : error),
        fst (Write fuel b s) = WriteDone total (Some e) -> b <> []).
Proof.
  assert (H : Write fuel [] s = (WriteDone 0 None, s))
    by (unfold Write; destruct fuel; reflexivity).
  split; [exact H | split].
  - rewrite H. reflexivity.
  - intros b total e Hb ->. rewrite H in Hb. discriminate.
Qed.

(** ** C5: the window update *)

Lemma sendFlags_zero (s : Stream) :
  (fst (sendFlags s) =? 0) = negb (mustPiggyback s).
Proof. unfold sendFlags, mustPiggyback. destruct (state s); reflexivity. Qed.

(** Inside the invariant [bufLen + recvWindow <= max] no subtraction wraps. *)
Lemma windowDelta_exact (s : Stream) :
  0 <= bufLen s -> 0 <= recvWindow s ->
  bufLen s + recvWindow s <= MaxStreamWindowSize (session s) ->
  MaxStreamWindowSize (session s) < 4294967296 ->
  windowDelta s = MaxStreamWindowSize (session s) - bufLen s - recvWindow s.
Proof.
  intros. unfold windowDelta. rewrite sub32_sub32. apply wrap32_small. lia.
Qed.

(** X23: [sendWindowUpdate] computes delta = max - buffered - recvWindow in
    [uint32]; it hands a WindowUpdate frame carrying delta to the session if
    and only if delta >= max/2 or a SYN or ACK has to piggyback; when it
    does, that frame is the only one and recvWindow grows by delta, and when
    it does not, the stream is exactly as before.  While the buffered bytes
    and recvWindow together do not exceed max, no subtraction wraps. *)
Theorem sendWindowUpdate_policy (s : Stream) :
  windowDelta s
  = wrap32 (MaxStreamWindowSize (session s) - bufLen s - recvWindow s)
  /\ (MaxStreamWindowSize (session s) / 2 <= windowDelta s
      \/ mustPiggyback s = true ->
      sent (session (snd (sendWindowUpdate s)))
      = sent (session s)
          ++ [mkFrame (encode typeWindowUpdate (fst (sendFlags s)) (id s)
                              (windowDelta s)) None]
      /\ recvWindow (snd (sendWindowUpdate s))
         = add32 (recvWindow s) (windowDelta s))
  /\ (~ (MaxStreamWindowSize (session s) / 2 <= windowDelta s
         \/ mustPiggyback s = true) ->
      sendWindowUpdate s = (None, s))
  /\ (sent (session (snd (sendWindowUpdate s))) <> sent (session s)
      <-> (MaxStreamWindowSize (session s) / 2 <= windowDelta s
           \/ mustPiggyback s = true))
  /\ (0 <= recvWindow s ->
      Z.of_nat (length (bufBytes s)) + recvWindow s
        <= MaxStreamWindowSize (session s) ->
      MaxStreamWindowSize (session s) < 4294967296 ->
      windowDelta s
      = MaxStreamWindowSize (session s) - Z.of_nat (length (bufBytes s))
        - recvWindow s).
Proof.
  assert (Hemit :
    MaxStreamWindowSize (session s) / 2 <= windowDelta s
    \/ mustPiggyback s = true ->
    sent (session (snd (sendWindowUpdate s)))
    = sent (session s)
        ++ [mkFrame (encode typeWindowUpdate (fst (sendFlags s)) (id s)
                            (windowDelta s)) None]
    /\ recvWindow (snd (sendWindowUpdate s))
       = add32 (recvWindow s) (windowDelta s)).
  { intros Hc. unfold sendWindowUpdate.
    pose proof (sendFlags_zero s) as Hz.
    assert (Hif : (windowDelta s <? MaxStreamWindowSize (session s) / 2)
                  && (fst (sendFlags s) =? 0) = false).
    { rewrite Hz. destruct Hc as [Hc | Hc].
      - apply andb_false_intro1. apply Z.ltb_ge. exact Hc.
      - rewrite Hc. apply andb_false_r. }
    destruct (sendFlags s) as [flags s1] eqn:Hsf. simpl in Hif. rewrite Hif.
    assert (Hs1 : id s1 = id s /\ recvWindow s1 = recvWindow s
                  /\ sent (session s1) = sent (session s)).
    { revert Hsf. unfold sendFlags.
      destruct (state s); intros Heq; inversion Heq; subst;
        repeat split; reflexivity. }
    destruct Hs1 as [Hid [Hrw Hsent]].
    unfold waitForSendErr. simpl. rewrite Hid, Hrw, Hsent. split; reflexivity. }
  assert (Hquiet :
    ~ (MaxStreamWindowSize (session s) / 2 <= windowDelta s
       \/ mustPiggyback s = true) ->
    sendWindowUpdate s = (None, s)).
  { intros Hn. unfold sendWindowUpdate.
    pose proof (sendFlags_zero s) as Hz.
    assert (Hp : mustPiggyback s = false)
      by (destruct (mustPiggyback s); [exfalso; apply Hn; auto | reflexivity]).
    assert (Hlt : (windowDelta s <? MaxStreamWindowSize (session s) / 2) = true)
      by (apply Z.ltb_lt; lia).
    assert (Hsf : sendFlags s = (0, s)).
    { revert Hp. unfold sendFlags, mustPiggyback.
      destruct (state s); intros; try discriminate; reflexivity. }
    rewrite Hsf, Hlt. reflexivity. }
  split; [apply sub32_sub32 | split; [exact Hemit | split; [exact Hquiet |]]].
  split; [split |].
  - intros Hne.
    destruct (Z_le_dec (MaxStreamWindowSize (session s) / 2) (windowDelta s));
      [auto |].
    destruct (mustPiggyback s) eqn:Hp; [auto |].
    exfalso. apply Hne. rewrite Hquiet; [reflexivity |].
    intros [H | H]; [contradiction | discriminate].
  - intros Hc Heq. destruct (Hemit Hc) as [Hs _]. rewrite Hs in Heq.
    apply (f_equal (@length frame)) in Heq. rewrite length_app in Heq.
    simpl in Heq. lia.
  - intros H0 Hsum Hmax.
    assert (Hlen : bufLen s = Z.of_nat (length (bufBytes s))).
    { unfold bufLen, bufBytes, uint32_of_len in *.
      destruct (recvBuf s); [apply wrap32_small; lia | reflexivity]. }
    rewrite <- Hlen in *. apply windowDelta_exact; lia.
Qed.

Lemma sendWindowUpdate_policy_witness :
  sent (session (snd (sendWindowUpdate
                        (set_recvWindow 100000
                           (newStream quietSession 1 streamEstablished)))))
  = [mkFrame (encode typeWindowUpdate 0 1 162144) None]
  /\ sendWindowUpdate
       (set_recvWindow 200000 (newStream quietSession 1 streamEstablished))
     = (None, set_recvWindow 200000 (newStream quietSession 1 streamEstablished)).
Proof.
  split.
  - pose proof (sendWindowUpdate_policy
                  (set_recvWindow 100000
                     (newStream quietSession 1 streamEstablished)))
      as [_ [H _]].
    refine (proj1 (H (or_introl _))). vm_compute. discriminate.
  - pose proof (sendWindowUpdate_policy
                  (set_recvWindow 200000
                     (newStream quietSession 1 streamEstablished)))
      as [_ [_ [H _]]].
    apply H. vm_compute. intros [H1 | H1]; [apply H1; reflexivity | discriminate].
Defined.

(** C5: what the code does at the failing input.  On the stream
    [overdrawn] the two buffered bytes and the receive window together exceed
    the configured window by 2, and no SYN or ACK is pending.  The delta
    max - buffered - recvWindow is -2, below max/2, yet [sendWindowUpdate]
    computes it in [uint32] as 4294967294, hands a WindowUpdate carrying that
    number to the session and sets recvWindow to 262142.  The same happens
    inside the [Read] that the user makes next: it returns one byte and a
    WindowUpdate carrying 4294967295 goes to the session. *)
Theorem window_update_wraps :
  fst (readData (encode typeData 0 1 5) 0 connBroken
         (newStream quietSession 1 streamEstablished))
  = Some (ErrSession 7)
  /\ MaxStreamWindowSize (session overdrawn)
       - Z.of_nat (length (bufBytes overdrawn)) - recvWindow overdrawn = -2
  /\ MaxStreamWindowSize (session overdrawn) / 2 = 131072
  /\ mustPiggyback overdrawn = false
  /\ windowDelta overdrawn = 4294967294
  /\ sent (session (snd (sendWindowUpdate overdrawn)))
     = [mkFrame (encode typeWindowUpdate 0 1 4294967294) None]
  /\ recvWindow overdrawn = 262144
  /\ recvWindow (snd (sendWindowUpdate overdrawn)) = 262142
  /\ fst (Read 1 overdrawn) = ReadReturn [Byte.x68] None
  /\ sent (session (snd (Read 1 overdrawn)))
     = [mkFrame (encode typeWindowUpdate 0 1 4294967295) None]
  /\ recvWindow (snd (Read 1 overdrawn)) = 262143.
Proof. repeat split; reflexivity. Qed.

(** ** C7: a data frame larger than the receive window *)

Lemma processFlags_error (flags : Z) (s : Stream) (e : error) :
  fst (processFlags flags s) = Some e -> e = ErrUnexpectedFlag.
Proof.
  lay_out s. unfold processFlags.
  destruct (hasFlag flags flagACK), (hasFlag flags flagFIN),
    (hasFlag flags flagRST), st; simpl; intros H;
    first [discriminate | inversion H; reflexivity].
Qed.

Lemma processFlags_no_flags (flags : Z) (s : Stream) :
  hasFlag flags flagACK = false -> hasFlag flags flagFIN = false ->
  hasFlag flags flagRST = false ->
  processFlags flags s = (None, s).
Proof. intros Ha Hf Hr. unfold processFlags. rewrite Ha, Hf, Hr. reflexivity. Qed.

(** C7, as the specification has it, fails: the flags of the frame are
    processed before its length is looked at.  An established stream gets a
    data frame that carries FIN and is one byte longer than the receive
    window: [readData] returns RecvWindowExceeded, and the stream has moved
    to RemoteClose. *)
Lemma readData_exceeded_changes_state :
  recvWindow (newStream quietSession 1 streamEstablished)
    < Length (encode typeData flagFIN 1 262145)
  /\ fst (readData (encode typeData flagFIN 1 262145) flagFIN connHi
                   (newStream quietSession 1 streamEstablished))
     = Some ErrRecvWindowExceeded
  /\ state (newStream quietSession 1 streamEstablished) = streamEstablished
  /\ state (snd (readData (encode typeData flagFIN 1 262145) flagFIN connHi
                          (newStream quietSession 1 streamEstablished)))
     = streamRemoteClose.
Proof. repeat split; reflexivity. Qed.

(** C7, amended: for every data frame whose length exceeds the receive
    window, [readData] returns an error, RecvWindowExceeded when the flags
    of the frame were processed without error and UnexpectedFlag otherwise;
    no byte is added to the buffer and the receive window is not touched;
    the state is the one the processing of the flags leaves, which is the
    state before the call when the frame carries none of ACK, FIN, RST. *)
Theorem readData_window_exceeded (hdr : header) (flags : Z) (conn : Conn)
    (s : Stream) :
  0 <= recvWindow s -> recvWindow s < Length hdr ->
  (fst (readData hdr flags conn s)
   = match fst (processFlags flags s) with
     | None => Some ErrRecvWindowExceeded
     | Some _ => Some ErrUnexpectedFlag
     end)
  /\ recvBuf (snd (readData hdr flags conn s)) = recvBuf s
  /\ recvWindow (snd (readData hdr flags conn s)) = recvWindow s
  /\ state (snd (readData hdr flags conn s))
     = state (snd (processFlags flags s))
  /\ (hasFlag flags flagACK = false -> hasFlag flags flagFIN = false ->
      hasFlag flags flagRST = false ->
      fst (readData hdr flags conn s) = Some ErrRecvWindowExceeded
      /\ state (snd (readData hdr flags conn s)) = state s).
Proof.
  intros H0 Hlt.
  assert (Hbuf : recvBuf (snd (processFlags flags s)) = recvBuf s).
  { lay_out s. unfold processFlags.
    destruct (hasFlag flags flagACK), (hasFlag flags flagFIN),
      (hasFlag flags flagRST), st; reflexivity. }
  pose proof (processFlags_keeps flags s) as [_ [_ Hrw]].
  pose proof (processFlags_error flags s) as Herr.
  assert (Hmain :
    (fst (readData hdr flags conn s)
     = match fst (processFlags flags s) with
       | None => Some ErrRecvWindowExceeded
       | Some _ => Some ErrUnexpectedFlag
       end)
    /\ recvBuf (snd (readData hdr flags conn s)) = recvBuf s
    /\ recvWindow (snd (readData hdr flags conn s)) = recvWindow s
    /\ state (snd (readData hdr flags conn s))
       = state (snd (processFlags flags s))).
  { unfold readData.
    destruct (processFlags flags s) as [[e |] s1]; simpl in *.
    - rewrite (Herr e eq_refl). auto.
    - assert (Hz : (Length hdr =? 0) = false) by (apply Z.eqb_neq; lia).
      assert (Hw : (recvWindow s1 <? Length hdr) = true)
        by (apply Z.ltb_lt; lia).
      rewrite Hz, Hw. lay_out s1. simpl in *. auto. }
  destruct Hmain as [H1 [H2 [H3 H4]]].
  repeat split; try assumption.
  - rewrite H1, (processFlags_no_flags flags s) by assumption. reflexivity.
  - rewrite H4, (processFlags_no_flags flags s) by assumption. reflexivity.
Qed.

Lemma readData_window_exceeded_witness :
  0 <= recvWindow (newStream quietSession 1 streamEstablished)
  /\ recvWindow (newStream quietSession 1 streamEstablished)
     < Length (encode typeData 0 1 262145)
  /\ fst (readData (encode typeData 0 1 262145) 0 connHi
                   (newStream quietSession 1 streamEstablished))
     = Some ErrRecvWindowExceeded
  /\ state (snd (readData (encode typeData 0 1 262145) 0 connHi
                          (newStream quietSession 1 streamEstablished)))
     = streamEstablished.
Proof.
  assert (H0 : 0 <= recvWindow (newStream quietSession 1 streamEstablished))
    by (vm_compute; discriminate).
  assert (H1 : recvWindow (newStream quietSession 1 streamEstablished)
               < Length (encode typeData 0 1 262145)) by reflexivity.
  split; [exact H0 | split; [exact H1 |]].
  exact (proj2 (proj2 (proj2 (proj2
           (readData_window_exceeded (encode typeData 0 1 262145) 0 connHi
              (newStream quietSession 1 streamEstablished) H0 H1))))
           eq_refl eq_refl eq_refl).
Defined.

(** ** C2: user I/O on a stream that is Closed or Reset *)

(** C2, as the specification has it, fails on three counts.  The stream
    [closedWithData] is reached by a data frame, a local [Close] and the
    peer's FIN; it is Closed, and [Read] still hands out the two buffered
    bytes, with no error.  In the states Closed and Reset a [Write] of no
    bytes returns (0, nil), and a [Read] after the read deadline has fired
    returns the timeout error, not EOF or ConnectionReset. *)
Lemma Closed_Read_returns_buffered :
  state closedWithData = streamClosed
  /\ isReadTimedOut closedWithData = false
  /\ fst (Read 2 closedWithData) = ReadReturn [Byte.x68; Byte.x69] None
  /\ fst (Write 1 [] closedWithData) = WriteDone 0 None
  /\ fst (Write 1 [] (newStream quietSession 1 streamReset)) = WriteDone 0 None
  /\ fst (Read 2 (set_readTimedOut 1 (newStream quietSession 1 streamReset)))
     = ReadReturn [] (Some timeoutError).
Proof. repeat split; reflexivity. Qed.

(** C2, amended: take a stream whose [recvLock] is free, so that no call is
    waiting for it with the state lock in hand.  If it is Closed or Reset and
    its write deadline has not fired, a [Write] of at least one byte returns
    0 bytes with StreamClosed (Closed) or ConnectionReset (Reset) and hands
    no frame to the session.  With the read deadline not fired, [Read]
    returns ConnectionReset in Reset; in Closed it returns EOF when the
    buffer is empty, and otherwise it hands out the buffered bytes, in
    Closed as in LocalClose and in RemoteClose. *)
Theorem Closed_Reset_io (s : Stream) :
  recvLock s = false ->
  (state s = streamClosed \/ state s = streamReset ->
   isWriteTimedOut s = false ->
   forall (fuel : nat) (b : list Byte.byte), b <> [] ->
     Write (S fuel) b s
     = (WriteDone 0 (Some (if streamState_eqb (state s) streamClosed
                           then ErrStreamClosed else ErrConnectionReset)), s))
  /\ (isReadTimedOut s = false ->
      forall blen : nat,
        (state s = streamReset ->
         Read blen s
         = (ReadReturn [] (Some ErrConnectionReset), asyncNotifyRecv s))
        /\ (state s = streamClosed -> bufBytes s = [] ->
            Read blen s = (ReadReturn [] (Some EOF), asyncNotifyRecv s))
        /\ (bufBytes s <> [] ->
            (state s = streamClosed \/ state s = streamLocalClose
             \/ state s = streamRemoteClose) ->
            exists err : option error,
              fst (Read blen s) = ReadReturn (firstn blen (bufBytes s)) err)).
Proof.
  intros Hlk. split.
  - intros Hst Hto fuel b Hb. unfold Write.
    destruct b as [| x b]; [congruence |].
    cbn [Write_loop]. change (0 <? Z.of_nat (length (x :: b))) with true.
    cbv iota. change (skipn (Z.to_nat 0) (x :: b)) with (x :: b).
    unfold write. rewrite Hto. unfold write_loop.
    destruct Hst as [-> | ->]; reflexivity.
  - intros Hto blen. unfold Read. rewrite Hto. unfold Read_loop.
    split; [| split].
    + intros ->. reflexivity.
    + intros -> Hb. rewrite Hlk. unfold bufBytes in Hb.
      destruct (recvBuf s) as [[| x l] |]; try discriminate; reflexivity.
    + intros Hb Hs. unfold bufBytes in *.
      assert (Hbuffered : exists err : option error,
                fst (Read_deferred (Read_buffered blen s))
                = ReadReturn (firstn blen (bufBytes s)) err).
      { unfold Read_buffered, bufBytes. rewrite Hlk.
        destruct (recvBuf s) as [[| x l] |]; try congruence.
        cbv zeta.
        destruct (sendWindowUpdate (set_recvBuf (Some (skipn blen (x :: l))) s))
          as [err s2].
        exists err. reflexivity. }
      unfold bufBytes in Hbuffered. rewrite Hlk.
      destruct Hs as [-> | [-> | ->]];
        destruct (recvBuf s) as [[| x l] |]; try congruence;
        exact Hbuffered.
Qed.

Lemma Closed_Reset_io_witness :
  recvLock closedWithData = false
  /\ (state closedWithData = streamClosed \/ state closedWithData = streamReset)
  /\ Write 1 [Byte.x68] closedWithData
     = (WriteDone 0 (Some ErrStreamClosed), closedWithData)
  /\ bufBytes closedWithData <> []
  /\ (exists err : option error,
        fst (Read 1 closedWithData) = ReadReturn [Byte.x68] err).
Proof.
  assert (Hlk : recvLock closedWithData = false) by reflexivity.
  assert (H : state closedWithData = streamClosed
              \/ state closedWithData = streamReset) by (left; reflexivity).
  assert (Hb : [Byte.x68] <> []) by discriminate.
  assert (Hbuf : bufBytes closedWithData <> []) by discriminate.
  destruct (Closed_Reset_io closedWithData Hlk) as [Hw Hr].
  split; [exact Hlk | split; [exact H |]].
  split; [exact (Hw H eq_refl 0%nat [Byte.x68] Hb) | split; [exact Hbuf |]].
  exact (proj2 (proj2 (Hr eq_refl 1%nat)) Hbuf (or_introl eq_refl)).
Defined.

(** ** C3: two deadlines in the future *)

(** X2: a read deadline in the future clears the flag and makes the runtime
    hold one more timer, to which the stream now points; every timer the
    runtime held before is left as it was, the one the stream pointed to
    included. *)
Lemma SetReadDeadline_future (now t : Z) (s : Stream) :
  t <> 0 -> now <= t ->
  isReadTimedOut (snd (SetReadDeadline now t s)) = false
  /\ readTimer (snd (SetReadDeadline now t s))
     = Some (length (runtimeTimers s))
  /\ runtimeTimers (snd (SetReadDeadline now t s))
     = runtimeTimers s
         ++ [mkTimer (now + Until now t) ReadDeadline false false].
Proof.
  intros Hz Hle. unfold SetReadDeadline, IsZero.
  assert (H0 : (t =? 0) = false) by (apply Z.eqb_neq; exact Hz).
  assert (Hd : (Until now t <? 0) = false).
  { apply Z.ltb_ge. unfold Until, minDuration, maxDuration. lia. }
  rewrite H0, Hd. lay_out s. repeat split; reflexivity.
Qed.

Lemma SetReadDeadline_future_witness :
  1010 <> 0 /\ 1000 <= 1010
  /\ runtimeTimers
       (snd (SetReadDeadline 1000 1010
               (newStream quietSession 1 streamEstablished)))
     = [mkTimer 1010 ReadDeadline false false].
Proof.
  assert (H0 : 1010 <> 0) by discriminate.
  assert (H1 : 1000 <= 1010) by discriminate.
  split; [exact H0 | split; [exact H1 |]].
  exact (proj2 (proj2 (SetReadDeadline_future 1000 1010
                         (newStream quietSession 1 streamEstablished) H0 H1))).
Defined.

(** The write deadline is set by the same code. *)
Lemma SetWriteDeadline_future (now t : Z) (s : Stream) :
  t <> 0 -> now <= t ->
  isWriteTimedOut (snd (SetWriteDeadline now t s)) = false
  /\ writeTimer (snd (SetWriteDeadline now t s))
     = Some (length (runtimeTimers s))
  /\ runtimeTimers (snd (SetWriteDeadline now t s))
     = runtimeTimers s
         ++ [mkTimer (now + Until now t) WriteDeadline false false].
Proof.
  intros Hz Hle. unfold SetWriteDeadline, IsZero.
  assert (H0 : (t =? 0) = false) by (apply Z.eqb_neq; exact Hz).
  assert (Hd : (Until now t <? 0) = false).
  { apply Z.ltb_ge. unfold Until, minDuration, maxDuration. lia. }
  rewrite H0, Hd. lay_out s. repeat split; reflexivity.
Qed.

(** C3: what the code does at the failing input.  At instant 1000 the read
    deadline is set to 1010, at instant 1001 it is set to 1100.  The second
    call clears the flag and schedules its timer, but the timer of the first
    call is still held by the runtime, neither stopped nor spent: when the
    clock reaches 1010 it fires and sets the timed-out flag, 90 instants
    before the deadline in force.  The write deadline behaves alike. *)
Theorem earlier_deadline_timer_still_fires :
  isReadTimedOut (snd (SetReadDeadline 1001 1100 (snd (SetReadDeadline 1000 1010
                    (newStream quietSession 1 streamEstablished))))) = false
  /\ runtimeTimers (snd (SetReadDeadline 1001 1100 (snd (SetReadDeadline 1000 1010
                      (newStream quietSession 1 streamEstablished)))))
     = [mkTimer 1010 ReadDeadline false false;
        mkTimer 1100 ReadDeadline false false]
  /\ isReadTimedOut
       (advanceTo 1010
          (snd (SetReadDeadline 1001 1100 (snd (SetReadDeadline 1000 1010
                  (newStream quietSession 1 streamEstablished)))))) = true
  /\ fst (Read 1
            (advanceTo 1010
               (snd (SetReadDeadline 1001 1100 (snd (SetReadDeadline 1000 1010
                       (newStream quietSession 1 streamEstablished)))))))
     = ReadReturn [] (Some timeoutError)
  /\ isWriteTimedOut
       (advanceTo 1010
          (snd (SetWriteDeadline 1001 1100 (snd (SetWriteDeadline 1000 1010
                  (newStream quietSession 1 streamEstablished)))))) = true.
Proof. repeat split; reflexivity. Qed.

(** ** C6: one step of write *)

Lemma uint32_of_len_fourGiB : uint32_of_len fourGiB = 0.
Proof.
  unfold uint32_of_len, fourGiB.
  rewrite repeat_length, Z2Nat.id by discriminate. reflexivity.
Qed.

(** X1: while [len(b)] fits a [uint32], a step of [write] that reaches the
    framing branch and whose frame the session takes hands over exactly one
    data frame of min(sendWindow, len(b)) bytes, lowers [sendWindow] by that
    number without wrapping, and returns it. *)
Lemma write_frames_min (b : list Byte.byte) (s : Stream) :
  finState (state s) = false -> isWriteTimedOut s = false ->
  0 < sendWindow s < 4294967296 ->
  Z.of_nat (length b) < 4294967296 ->
  waitErr (session s) (length (sent (session s))) = None ->
  fst (write b s)
  = WriteReturn (Z.min (sendWindow s) (Z.of_nat (length b))) None
  /\ sent (session (snd (write b s)))
     = sent (session s)
         ++ [mkFrame (encode typeData (fst (sendFlags s)) (id s)
                       (Z.min (sendWindow s) (Z.of_nat (length b))))
               (Some (firstn (Z.to_nat (Z.min (sendWindow s)
                                          (Z.of_nat (length b)))) b))]
  /\ sendWindow (snd (write b s))
     = sendWindow s - Z.min (sendWindow s) (Z.of_nat (length b))
  /\ 0 <= sendWindow (snd (write b s)).
Proof.
  intros Hst Hto Hw Hlen Hsend.
  assert (Hu : uint32_of_len b = Z.of_nat (length b))
    by (apply wrap32_small; lia).
  assert (Hsub : add32 (sendWindow s)
                   (not32 (sub32 (Z.min (sendWindow s) (Z.of_nat (length b))) 1))
                 = sendWindow s - Z.min (sendWindow s) (Z.of_nat (length b)))
    by (apply add32_not32_pred; lia).
  unfold write. rewrite Hto. unfold write_loop. rewrite Hu.
  assert (Hnz : negb (sendWindow s =? 0) = true)
    by (apply negb_true_iff, Z.eqb_neq; lia).
  rewrite Hnz. clear Hnz Hu.
  lay_out s. cbn [state sendWindow session waitErr sent id] in *.
  unfold sendFlags, waitForSendErr.
  destruct st; try discriminate; cbn - [Z.min Z.to_nat add32 not32 sub32] in *;
    rewrite Hsend; cbn - [Z.min Z.to_nat add32 not32 sub32];
    rewrite Hsub; repeat split; lia.
Qed.

Lemma write_frames_min_witness :
  fst (write [Byte.x68; Byte.x69]
         (set_sendWindow 1 (newStream quietSession 1 streamInit)))
  = WriteReturn 1 None
  /\ sendWindow (snd (write [Byte.x68; Byte.x69]
                        (set_sendWindow 1 (newStream quietSession 1 streamInit))))
     = 0.
Proof.
  assert (H : 0 < sendWindow (set_sendWindow 1
                                (newStream quietSession 1 streamInit))
              < 4294967296) by (split; reflexivity).
  pose proof (write_frames_min [Byte.x68; Byte.x69]
                (set_sendWindow 1 (newStream quietSession 1 streamInit))
                eq_refl eq_refl H eq_refl eq_refl) as [H1 [_ [H2 _]]].
  split; [exact H1 | exact H2].
Defined.

Lemma length_fourGiB : Z.of_nat (length fourGiB) = 4294967296.
Proof.
  unfold fourGiB. rewrite repeat_length, Z2Nat.id by discriminate.
  reflexivity.
Qed.

(** On an established stream with credit left, no deadline fired and a
    session that takes every frame, a step of [write] on the 4 GiB buffer
    returns (0, nil) and leaves the stream as ready as it was. *)
Lemma write_fourGiB_no_progress (s : Stream) :
  state s = streamEstablished -> sendWindow s <> 0 ->
  0 <= sendWindow s < 4294967296 ->
  isWriteTimedOut s = false ->
  (forall n : nat, waitErr (session s) n = None) ->
  fst (write fourGiB s) = WriteReturn 0 None
  /\ state (snd (write fourGiB s)) = streamEstablished
  /\ sendWindow (snd (write fourGiB s)) = sendWindow s
  /\ isWriteTimedOut (snd (write fourGiB s)) = false
  /\ (forall n : nat, waitErr (session (snd (write fourGiB s))) n = None).
Proof.
  intros Hst Hw Hr Hto Hsend.
  unfold write. rewrite Hto. unfold write_loop. rewrite Hst.
  rewrite uint32_of_len_fourGiB.
  assert (Hnz : negb (sendWindow s =? 0) = true)
    by (apply negb_true_iff, Z.eqb_neq; exact Hw).
  rewrite Hnz. unfold sendFlags. rewrite Hst.
  assert (Hmin : Z.min (sendWindow s) 0 = 0) by lia.
  rewrite Hmin. unfold waitForSendErr. rewrite Hsend.
  assert (Hadd : add32 (sendWindow s) (not32 (sub32 0 1)) = sendWindow s)
    by (rewrite add32_not32_pred by lia; lia).
  lay_out s. cbn [state sendWindow session waitErr sent id] in *.
  cbn - [add32 not32 sub32]. rewrite Hadd.
  repeat split; assumption.
Qed.

(** Hence [Write] on that buffer never returns: after any number of rounds
    of its loop it is still running, with no byte written. *)
Lemma Write_fourGiB_never_returns (fuel : nat) :
  forall s : Stream,
    state s = streamEstablished -> sendWindow s <> 0 ->
    0 <= sendWindow s < 4294967296 ->
    isWriteTimedOut s = false ->
    (forall n : nat, waitErr (session s) n = None) ->
    fst (Write_loop fuel 0 fourGiB s) = WriteRunning 0.
Proof.
  induction fuel as [| fuel IH]; intros s Hst Hw Hr Hto Hsend;
    cbn [Write_loop]; rewrite length_fourGiB;
    change (0 <? 4294967296) with true; cbv iota; [reflexivity |].
  change (skipn (Z.to_nat 0) fourGiB) with fourGiB.
  destruct (write_fourGiB_no_progress s Hst Hw Hr Hto Hsend)
    as [Hres [Hst' [Hw' [Hto' Hsend']]]].
  destruct (write fourGiB s) as [res s1]. cbn [fst snd] in *.
  subst res. change (0 + 0) with 0.
  apply IH; try assumption; rewrite Hw'; assumption.
Qed.

Lemma write_fourGiB_at_100 :
  write fourGiB
    (set_sendWindow 100 (newStream quietSession 1 streamEstablished))
  = (WriteReturn 0 None,
     set_session
       (set_sent [mkFrame (encode typeData 0 1 0) (Some [])] quietSession)
       (set_sendWindow 100 (newStream quietSession 1 streamEstablished))).
Proof.
  unfold write, write_loop.
  change (isWriteTimedOut
            (set_sendWindow 100 (newStream quietSession 1 streamEstablished)))
    with false.
  cbv iota.
  change (state (set_sendWindow 100
                   (newStream quietSession 1 streamEstablished)))
    with streamEstablished.
  cbv iota.
  rewrite uint32_of_len_fourGiB. reflexivity.
Qed.

Lemma Write_fourGiB_at_100 (fuel : nat) :
  fst (Write fuel fourGiB
         (set_sendWindow 100 (newStream quietSession 1 streamEstablished)))
  = WriteRunning 0.
Proof.
  unfold Write.
  apply Write_fourGiB_never_returns;
    try reflexivity; cbn; try discriminate.
  split; [discriminate | reflexivity].
Qed.

Lemma min_100_fourGiB : Z.min 100 (Z.of_nat (length fourGiB)) = 100.
Proof. rewrite length_fourGiB. reflexivity. Qed.

(** C6: what the code does at the failing input.  The stream is established,
    its send window is 100, the session takes every frame, and the buffer
    holds 4 GiB.  [uint32(len(b))] is 0, so the step hands a data frame of
    length 0 with an empty body to the session, leaves [sendWindow] at 100
    and returns 0 with no error, where min(sendWindow, len(b)) is 100; and
    [Write], which calls the step until all bytes are written, never
    returns. *)
Theorem write_length_truncated :
  Z.of_nat (length fourGiB) = 4294967296
  /\ Z.min 100 (Z.of_nat (length fourGiB)) = 100
  /\ write fourGiB
       (set_sendWindow 100 (newStream quietSession 1 streamEstablished))
     = (WriteReturn 0 None,
        set_session
          (set_sent [mkFrame (encode typeData 0 1 0) (Some [])] quietSession)
          (set_sendWindow 100 (newStream quietSession 1 streamEstablished)))
  /\ (forall fuel : nat,
        fst (Write fuel fourGiB
               (set_sendWindow 100
                  (newStream quietSession 1 streamEstablished)))
        = WriteRunning 0).
Proof.
  exact (conj length_fourGiB
           (conj min_100_fourGiB
              (conj write_fourGiB_at_100 Write_fourGiB_at_100))).
Qed.

(** * Further properties of the stream *)

(** ** The life of a stream only advances *)

Lemma count_snoc {A : Type} (p : A -> bool) (l : list A) (x : A) :
  length (filter p (l ++ [x]))
  = (length (filter p l) + (if p x then 1 else 0))%nat.
Proof.
  rewrite filter_app, length_app. simpl. destruct (p x); reflexivity.
Qed.

Lemma advances_refl (s : Stream) : advances s s.
Proof. repeat split; auto. Qed.

Lemma advances_trans (a b c : Stream) :
  advances a b -> advances b c -> advances a c.
Proof.
  unfold advances. intros [H1 [H2 [H3 H4]]] [H5 [H6 [H7 H8]]].
  repeat split; [lia | auto | congruence | congruence].
Qed.

Ltac settle_advances :=
  unfold advances, handshakeInvariant, synCount, ackCount; simpl;
  rewrite ?count_snoc; simpl;
  repeat split; auto; try lia; try (intros; lia); try (intros [? ?]; lia).

Lemma sendFlags_advances (s : Stream) : advances s (snd (sendFlags s)).
Proof. lay_out s. unfold sendFlags. destruct st; settle_advances. Qed.

Lemma processFlags_advances (flags : Z) (s : Stream) :
  advances s (snd (processFlags flags s)).
Proof.
  lay_out s. unfold processFlags.
  destruct (hasFlag flags flagACK), (hasFlag flags flagFIN),
    (hasFlag flags flagRST), st; settle_advances.
Qed.

Lemma sendWindowUpdate_advances (s : Stream) :
  advances s (snd (sendWindowUpdate s)).
Proof.
  lay_out s. unfold sendWindowUpdate, windowDelta, sendFlags. simpl.
  destruct st; simpl;
    match goal with
    | |- context [if ?c then _ else _] => destruct c
    end; settle_advances.
Qed.

Lemma write_loop_advances (b : list Byte.byte) (s : Stream) :
  advances s (snd (write_loop b s)).
Proof.
  lay_out s. unfold write_loop, sendFlags, waitForSendErr. simpl.
  destruct st; simpl; try (destruct (sw =? 0); simpl);
    try match goal with
        | |- context [we ?n] => destruct (we n)
        end; settle_advances.
Qed.

Lemma write_advances (b : list Byte.byte) (s : Stream) :
  advances s (snd (write b s)).
Proof.
  unfold write. destruct (isWriteTimedOut s);
    [apply advances_refl | apply write_loop_advances].
Qed.

Lemma write_wake_advances (byTimeout : bool) (b : list Byte.byte) (s : Stream) :
  advances s (snd (write_wake byTimeout b s)).
Proof.
  unfold write_wake. destruct byTimeout; [apply advances_refl |].
  eapply advances_trans; [| apply write_loop_advances].
  lay_out s. destruct st; settle_advances.
Qed.

Lemma Write_loop_advances (fuel : nat) (b : list Byte.byte) :
  forall (total : Z) (s : Stream),
    advances s (snd (Write_loop fuel total b s)).
Proof.
  induction fuel as [| fuel IH]; intros total s; simpl;
    destruct (total <? Z.of_nat (length b)); try apply advances_refl.
  pose proof (write_advances (skipn (Z.to_nat total) b) s) as H.
  destruct (write (skipn (Z.to_nat total) b) s) as [[n [e |] |] s1];
    cbn [snd] in *; try assumption.
  eapply advances_trans; [exact H | apply IH].
Qed.

Lemma Close_advances (s : Stream) : advances s (snd (Close s)).
Proof.
  lay_out s. unfold Close, Close_SEND_CLOSE, sendClose. simpl.
  destruct st; settle_advances.
Qed.

Lemma forceClose_advances (s : Stream) : advances s (forceClose s).
Proof. lay_out s. unfold forceClose. destruct st; settle_advances. Qed.

Lemma incrSendWindow_advances (hdr : header) (flags : Z) (s : Stream) :
  advances s (snd (incrSendWindow hdr flags s)).
Proof.
  unfold incrSendWindow.
  pose proof (processFlags_advances flags s) as H.
  destruct (processFlags flags s) as [[e |] s1]; cbn [snd] in *;
    [assumption |].
  eapply advances_trans; [exact H |]. lay_out s1. destruct st; settle_advances.
Qed.

Lemma Shrink_advances (s : Stream) : advances s (Shrink s).
Proof.
  lay_out s. unfold Shrink. simpl.
  destruct rb as [[| x l] |], st; settle_advances.
Qed.

Lemma Read_buffered_advances (blen : nat) (s : Stream) :
  advances s (snd (Read_buffered blen s)).
Proof.
  unfold Read_buffered.
  destruct (recvLock s); [apply advances_refl |].
  destruct (recvBuf s) as [[| x l] |] eqn:Hrb.
  - lay_out s. destruct st; settle_advances.
  - cbv zeta.
    pose proof (sendWindowUpdate_advances
                  (set_recvBuf (Some (skipn blen (x :: l))) s)) as H.
    destruct (sendWindowUpdate (set_recvBuf (Some (skipn blen (x :: l))) s))
      as [err s2]. cbn [snd] in *.
    eapply advances_trans; [| exact H]. lay_out s. destruct st; settle_advances.
  - lay_out s. destruct st; settle_advances.
Qed.

Lemma Read_loop_advances (blen : nat) (s : Stream) :
  advances s (snd (Read_loop blen s)).
Proof.
  unfold Read_loop.
  destruct (state s); try apply Read_buffered_advances;
    try apply advances_refl;
    (destruct (recvLock s); [apply advances_refl |]);
    destruct (recvBuf s) as [[| x l] |];
    try apply Read_buffered_advances; apply advances_refl.
Qed.

Lemma Read_deferred_advances (s : Stream) (r : ReadResult * Stream) :
  advances s (snd r) -> advances s (snd (Read_deferred r)).
Proof.
  destruct r as [[data err | |] s1]; cbn [snd Read_deferred]; auto.
Qed.

Lemma Read_advances (blen : nat) (s : Stream) :
  advances s (snd (Read blen s)).
Proof.
  unfold Read. apply Read_deferred_advances.
  destruct (isReadTimedOut s);
    [apply advances_refl | apply Read_loop_advances].
Qed.

Lemma Read_wake_advances (byTimeout : bool) (blen : nat) (s : Stream) :
  advances s (snd (Read_wake byTimeout blen s)).
Proof.
  unfold Read_wake. apply Read_deferred_advances.
  destruct byTimeout; [apply advances_refl |].
  eapply advances_trans; [| apply Read_loop_advances].
  lay_out s. destruct st; settle_advances.
Qed.

Lemma readData_advances (hdr : header) (flags : Z) (conn : Conn) (s : Stream) :
  advances s (snd (readData hdr flags conn s)).
Proof.
  unfold readData.
  pose proof (processFlags_advances flags s) as H.
  destruct (processFlags flags s) as [[e |] s1]; cbn [snd] in *; auto.
  eapply advances_trans; [exact H |].
  destruct (Length hdr =? 0); [apply advances_refl |].
  destruct (recvWindow s1 <? Length hdr);
    [lay_out s1; destruct st; settle_advances |].
  unfold copyLimited.
  destruct (Z.of_nat (length (avail conn)) <? Length hdr);
    [destruct (failure conn) |]; lay_out s1; destruct st; settle_advances.
Qed.

Lemma SetReadDeadline_advances (now t : Z) (s : Stream) :
  advances s (snd (SetReadDeadline now t s)).
Proof.
  lay_out s. unfold SetReadDeadline, AfterFunc. simpl.
  destruct (IsZero t), (Until now t <? 0), rt, st; settle_advances.
Qed.

Lemma SetWriteDeadline_advances (now t : Z) (s : Stream) :
  advances s (snd (SetWriteDeadline now t s)).
Proof.
  lay_out s. unfold SetWriteDeadline, AfterFunc. simpl.
  destruct (IsZero t), (Until now t <? 0), wt, st; settle_advances.
Qed.

Lemma SetDeadline_advances (now t : Z) (s : Stream) :
  advances s (snd (SetDeadline now t s)).
Proof.
  unfold SetDeadline.
  pose proof (SetReadDeadline_advances now t s) as H.
  destruct (SetReadDeadline now t s) as [[e |] s1]; cbn [snd] in *;
    [assumption |].
  pose proof (SetWriteDeadline_advances now t s1) as H'.
  destruct (SetWriteDeadline now t s1) as [[e |] s2]; cbn [snd] in *;
    eapply advances_trans; eassumption.
Qed.

Lemma fireTimer_advances (now : Z) (n : nat) (s : Stream) :
  advances s (fireTimer now n s).
Proof.
  lay_out s. unfold fireTimer. simpl.
  destruct (nth_error tm n) as [[at_ k st0 fd] |]; simpl;
    [| destruct st; settle_advances].
  destruct ((at_ <=? now) && negb st0 && negb fd);
    [| destruct st; settle_advances].
  destruct k, st; settle_advances.
Qed.

Lemma fireTimers_advances (now : Z) (l : list nat) :
  forall s : Stream,
    advances s (fold_left (fun s i => fireTimer now i s) l s).
Proof.
  induction l as [| i l IH]; intros s; simpl; [apply advances_refl |].
  eapply advances_trans; [apply fireTimer_advances | apply IH].
Qed.

Lemma step_advances (o : op) (s : Stream) : advances s (snd (step o s)).
Proof.
  destruct o; unfold step; cbn [snd].
  - rewrite observeRead_snd. apply Read_advances.
  - rewrite observeRead_snd. apply Read_wake_advances.
  - apply Write_loop_advances.
  - apply write_advances.
  - apply write_wake_advances.
  - pose proof (Close_advances s) as H.
    destruct (Close s) as [[err |] s1]; exact H.
  - apply forceClose_advances.
  - apply processFlags_advances.
  - apply incrSendWindow_advances.
  - pose proof (readData_advances hdr flags conn s) as H.
    destruct (readData hdr flags conn s) as [[e |] s1]; exact H.
  - apply sendWindowUpdate_advances.
  - apply Shrink_advances.
  - apply SetDeadline_advances.
  - apply SetReadDeadline_advances.
  - apply SetWriteDeadline_advances.
  - apply fireTimers_advances.
Qed.

Lemma run_advances (ops : list op) :
  forall s : Stream, advances s (snd (run ops s)).
Proof.
  induction ops as [| o ops IH]; intros s; simpl; [apply advances_refl |].
  pose proof (step_advances o s) as H1.
  destruct (step o s) as [ob s1]. cbn [snd] in H1.
  specialize (IH s1). destruct (run ops s1) as [obs s2]. cbn [snd] in IH.
  destruct ob; cbn [snd]; try exact H1;
    eapply advances_trans; eassumption.
Qed.

(** X3: in every run, from every stream, the state never moves to one of
    lower rank: a stream never returns to Init, an established stream never
    returns to the handshake, and a stream that has stopped receiving (FIN or
    RST seen, or closed on both sides) never receives again. *)
Theorem lifecycle_only_advances (ops : list op) (s : Stream) :
  (rank (state s) <= rank (state (snd (run ops s))))%nat
  /\ (state (snd (run ops s)) = streamInit -> state s = streamInit)
  /\ (state s = streamEstablished ->
      state (snd (run ops s)) <> streamInit
      /\ state (snd (run ops s)) <> streamSYNSent
      /\ state (snd (run ops s)) <> streamSYNReceived)
  /\ (state s = streamClosed \/ state s = streamReset ->
      state (snd (run ops s)) = streamClosed
      \/ state (snd (run ops s)) = streamReset).
Proof.
  destruct (run_advances ops s) as [Hrank _].
  split; [exact Hrank |].
  destruct (state s), (state (snd (run ops s))); simpl in Hrank;
    repeat split; intros; try discriminate; try lia; auto;
    try (destruct H; discriminate).
Qed.

(** X4: in every run of a stream created with no SYN and no ACK on record,
    at most one frame handed to the session carries SYN, at most one carries
    ACK, and no stream sends both. *)
Theorem handshake_flags_once (ops : list op) (c : Session) (i : Z)
    (st : streamState) :
  synCount (newStream c i st) = 0%nat ->
  ackCount (newStream c i st) = 0%nat ->
  (synCount (snd (run ops (newStream c i st)))
   + ackCount (snd (run ops (newStream c i st))) <= 1)%nat.
Proof.
  intros Hs Ha.
  destruct (run_advances ops (newStream c i st)) as [_ [Hinv _]].
  assert (H0 : handshakeInvariant (newStream c i st)).
  { unfold handshakeInvariant. destruct st; cbn [state newStream]; lia. }
  specialize (Hinv H0). unfold handshakeInvariant in Hinv.
  destruct (state (snd (run ops (newStream c i st)))); lia.
Qed.

Lemma handshake_flags_once_witness :
  synCount (snd (run [OpWriteStep [Byte.x68]; OpSendWindowUpdate;
                      OpProcessFlags flagACK; OpWriteStep [Byte.x69]; OpClose]
                     (newStream quietSession 1 streamInit))) = 1%nat
  /\ ackCount (snd (run [OpWriteStep [Byte.x68]; OpSendWindowUpdate;
                         OpProcessFlags flagACK; OpWriteStep [Byte.x69];
                         OpClose]
                        (newStream quietSession 1 streamInit))) = 0%nat.
Proof.
  pose proof (handshake_flags_once
                [OpWriteStep [Byte.x68]; OpSendWindowUpdate;
                 OpProcessFlags flagACK; OpWriteStep [Byte.x69]; OpClose]
                quietSession 1 streamInit eq_refl eq_refl) as H.
  assert (Hs : synCount
                 (snd (run [OpWriteStep [Byte.x68]; OpSendWindowUpdate;
                            OpProcessFlags flagACK; OpWriteStep [Byte.x69];
                            OpClose]
                           (newStream quietSession 1 streamInit))) = 1%nat)
    by reflexivity.
  split; [exact Hs |]. rewrite Hs in H. lia.
Defined.

(** ** The receive window *)

Lemma keepsRecv_refl (s : Stream) : keepsRecv s s.
Proof. repeat split. Qed.

Lemma keepsRecv_trans (a b c : Stream) :
  keepsRecv a b -> keepsRecv b c -> keepsRecv a c.
Proof.
  unfold keepsRecv. intros [H1 [H2 H3]] [H4 [H5 H6]].
  repeat split; congruence.
Qed.

Lemma keepsRecv_recvInvariant (s s' : Stream) :
  keepsRecv s s' -> recvInvariant s -> recvInvariant s'.
Proof.
  unfold keepsRecv, recvInvariant. intros [-> [-> ->]] H. exact H.
Qed.

Ltac settle_recv := unfold keepsRecv, bufBytes; simpl; repeat split; auto.

Lemma sendFlags_keepsRecv (s : Stream) : keepsRecv s (snd (sendFlags s)).
Proof. lay_out s. unfold sendFlags. destruct st; settle_recv. Qed.

Lemma processFlags_keepsRecv (flags : Z) (s : Stream) :
  keepsRecv s (snd (processFlags flags s)).
Proof.
  lay_out s. unfold processFlags.
  destruct (hasFlag flags flagACK), (hasFlag flags flagFIN),
    (hasFlag flags flagRST), st; settle_recv.
Qed.

Lemma write_loop_keepsRecv (b : list Byte.byte) (s : Stream) :
  keepsRecv s (snd (write_loop b s)).
Proof.
  lay_out s. unfold write_loop, sendFlags, waitForSendErr. simpl.
  destruct st; simpl; try (destruct (sw =? 0); simpl);
    try match goal with
        | |- context [we ?n] => destruct (we n)
        end; settle_recv.
Qed.

Lemma write_keepsRecv (b : list Byte.byte) (s : Stream) :
  keepsRecv s (snd (write b s)).
Proof.
  unfold write. destruct (isWriteTimedOut s);
    [apply keepsRecv_refl | apply write_loop_keepsRecv].
Qed.

Lemma write_wake_keepsRecv (byTimeout : bool) (b : list Byte.byte)
    (s : Stream) :
  keepsRecv s (snd (write_wake byTimeout b s)).
Proof.
  unfold write_wake. destruct byTimeout; [apply keepsRecv_refl |].
  eapply keepsRecv_trans; [| apply write_loop_keepsRecv].
  lay_out s. settle_recv.
Qed.

Lemma Write_loop_keepsRecv (fuel : nat) (b : list Byte.byte) :
  forall (total : Z) (s : Stream),
    keepsRecv s (snd (Write_loop fuel total b s)).
Proof.
  induction fuel as [| fuel IH]; intros total s; simpl;
    destruct (total <? Z.of_nat (length b)); try apply keepsRecv_refl.
  pose proof (write_keepsRecv (skipn (Z.to_nat total) b) s) as H.
  destruct (write (skipn (Z.to_nat total) b) s) as [[n [e |] |] s1];
    cbn [snd] in *; try assumption.
  eapply keepsRecv_trans; [exact H | apply IH].
Qed.

Lemma Close_keepsRecv (s : Stream) : keepsRecv s (snd (Close s)).
Proof.
  lay_out s. unfold Close, Close_SEND_CLOSE, sendClose. simpl.
  destruct st; settle_recv.
Qed.

Lemma forceClose_keepsRecv (s : Stream) : keepsRecv s (forceClose s).
Proof. lay_out s. unfold forceClose. settle_recv. Qed.

Lemma incrSendWindow_keepsRecv (hdr : header) (flags : Z) (s : Stream) :
  keepsRecv s (snd (incrSendWindow hdr flags s)).
Proof.
  unfold incrSendWindow.
  pose proof (processFlags_keepsRecv flags s) as H.
  destruct (processFlags flags s) as [[e |] s1]; cbn [snd] in *;
    [assumption |].
  eapply keepsRecv_trans; [exact H |]. lay_out s1. settle_recv.
Qed.

Lemma Shrink_keepsRecv (s : Stream) : keepsRecv s (Shrink s).
Proof.
  lay_out s. unfold Shrink. simpl. destruct rb as [[| x l] |]; settle_recv.
Qed.

Lemma SetReadDeadline_keepsRecv (now t : Z) (s : Stream) :
  keepsRecv s (snd (SetReadDeadline now t s)).
Proof.
  lay_out s. unfold SetReadDeadline, AfterFunc. simpl.
  destruct (IsZero t), (Until now t <? 0), rt; settle_recv.
Qed.

Lemma SetWriteDeadline_keepsRecv (now t : Z) (s : Stream) :
  keepsRecv s (snd (SetWriteDeadline now t s)).
Proof.
  lay_out s. unfold SetWriteDeadline, AfterFunc. simpl.
  destruct (IsZero t), (Until now t <? 0), wt; settle_recv.
Qed.

Lemma SetDeadline_keepsRecv (now t : Z) (s : Stream) :
  keepsRecv s (snd (SetDeadline now t s)).
Proof.
  unfold SetDeadline.
  pose proof (SetReadDeadline_keepsRecv now t s) as H.
  destruct (SetReadDeadline now t s) as [[e |] s1]; cbn [snd] in *;
    [assumption |].
  pose proof (SetWriteDeadline_keepsRecv now t s1) as H'.
  destruct (SetWriteDeadline now t s1) as [[e |] s2]; cbn [snd] in *;
    eapply keepsRecv_trans; eassumption.
Qed.

Lemma fireTimer_keepsRecv (now : Z) (n : nat) (s : Stream) :
  keepsRecv s (fireTimer now n s).
Proof.
  lay_out s. unfold fireTimer. simpl.
  destruct (nth_error tm n) as [[at_ k st0 fd] |]; simpl; [| settle_recv].
  destruct ((at_ <=? now) && negb st0 && negb fd); [| settle_recv].
  destruct k; settle_recv.
Qed.

Lemma fireTimers_keepsRecv (now : Z) (l : list nat) :
  forall s : Stream,
    keepsRecv s (fold_left (fun s i => fireTimer now i s) l s).
Proof.
  induction l as [| i l IH]; intros s; simpl; [apply keepsRecv_refl |].
  eapply keepsRecv_trans; [apply fireTimer_keepsRecv | apply IH].
Qed.

Lemma wrap32_bounds (z : Z) : 0 <= wrap32 z < 4294967296.
Proof. unfold wrap32. apply Z.mod_pos_bound. reflexivity. Qed.

(** Inside the invariant a window update brings the credit back to the
    configured window less the bytes still buffered. *)
Lemma window_refill (mx len rw : Z) :
  0 <= rw -> 0 <= len -> len + rw <= mx -> mx < 4294967296 ->
  add32 rw (sub32 (sub32 mx (wrap32 len)) rw) = mx - len.
Proof.
  intros. rewrite (wrap32_small len) by lia.
  rewrite sub32_sub32, (wrap32_small (mx - len - rw)) by lia.
  unfold add32. replace (rw + (mx - len - rw)) with (mx - len) by lia.
  apply wrap32_small. lia.
Qed.

Lemma sendWindowUpdate_recvInvariant (s : Stream) :
  recvInvariant s -> recvInvariant (snd (sendWindowUpdate s)).
Proof.
  unfold recvInvariant, bufBytes. lay_out s.
  unfold sendWindowUpdate, windowDelta, sendFlags, bufLen, uint32_of_len.
  cbn [state session recvBuf recvWindow MaxStreamWindowSize].
  intros [H0 [H1 H2]].
  assert (Hfill :
    add32 rw (sub32 (sub32 mx
                       (match rb with
                        | Some buf => wrap32 (Z.of_nat (length buf))
                        | None => 0
                        end)) rw)
    = mx - Z.of_nat (length (match rb with Some buf => buf | None => [] end))).
  { destruct rb as [buf |].
    - apply window_refill; lia.
    - change 0 with (wrap32 0) at 1. apply window_refill; simpl in *; lia. }
  destruct st;
    match goal with
    | |- context [if ?c then _ else _] => destruct c
    end; cbn - [add32 sub32 wrap32 Z.of_nat]; rewrite ?Hfill;
    repeat split; try assumption; try lia.
Qed.

Lemma Read_buffered_recvInvariant (blen : nat) (s : Stream) :
  recvInvariant s -> recvInvariant (snd (Read_buffered blen s)).
Proof.
  intros Hinv. unfold Read_buffered.
  destruct (recvLock s); [exact Hinv |].
  destruct (recvBuf s) as [[| x l] |] eqn:Hrb.
  - revert Hinv. unfold recvInvariant, bufBytes. lay_out s. auto.
  - cbv zeta.
    pose proof (sendWindowUpdate_recvInvariant
                  (set_recvBuf (Some (skipn blen (x :: l))) s)) as H.
    destruct (sendWindowUpdate (set_recvBuf (Some (skipn blen (x :: l))) s))
      as [err s2]. cbn [snd] in *. apply H. clear H.
    revert Hinv. unfold recvInvariant, bufBytes. rewrite Hrb.
    lay_out s. cbn [recvBuf set_recvBuf recvWindow session].
    pose proof (length_skipn blen (x :: l)) as Hlen.
    intros [H0 [H1 H2]]. repeat split; try assumption. lia.
  - revert Hinv. unfold recvInvariant, bufBytes. lay_out s. auto.
Qed.

Lemma Read_loop_recvInvariant (blen : nat) (s : Stream) :
  recvInvariant s -> recvInvariant (snd (Read_loop blen s)).
Proof.
  intros Hinv. unfold Read_loop.
  destruct (state s); try (apply Read_buffered_recvInvariant; exact Hinv);
    try exact Hinv;
    (destruct (recvLock s); [exact Hinv |]);
    destruct (recvBuf s) as [[| x l] |];
    try (apply Read_buffered_recvInvariant; exact Hinv); exact Hinv.
Qed.

Lemma Read_deferred_recvInvariant (r : ReadResult * Stream) :
  recvInvariant (snd r) -> recvInvariant (snd (Read_deferred r)).
Proof. destruct r as [[data err | |] s1]; cbn [snd Read_deferred]; auto. Qed.

Lemma Read_recvInvariant (blen : nat) (s : Stream) :
  recvInvariant s -> recvInvariant (snd (Read blen s)).
Proof.
  intros Hinv. unfold Read. apply Read_deferred_recvInvariant.
  destruct (isReadTimedOut s);
    [exact Hinv | apply Read_loop_recvInvariant; exact Hinv].
Qed.

Lemma Read_wake_recvInvariant (byTimeout : bool) (blen : nat) (s : Stream) :
  recvInvariant s -> recvInvariant (snd (Read_wake byTimeout blen s)).
Proof.
  intros Hinv. unfold Read_wake. apply Read_deferred_recvInvariant.
  destruct byTimeout; [exact Hinv |].
  apply Read_loop_recvInvariant.
  revert Hinv. unfold recvInvariant, bufBytes. lay_out s. auto.
Qed.

Lemma readData_recvInvariant (hdr : header) (flags : Z) (conn : Conn)
    (s : Stream) :
  0 <= Length hdr ->
  fst (readData hdr flags conn s) = None ->
  recvInvariant s -> recvInvariant (snd (readData hdr flags conn s)).
Proof.
  intros Hnn. unfold readData.
  pose proof (processFlags_keepsRecv flags s) as Hk.
  destruct (processFlags flags s) as [[e |] s1]; cbn [fst snd] in *;
    [discriminate |].
  intros Hacc Hinv.
  pose proof (keepsRecv_recvInvariant s s1 Hk Hinv) as H1. clear Hk Hinv.
  destruct (Length hdr =? 0) eqn:Hz; [exact H1 |].
  destruct (recvWindow s1 <? Length hdr) eqn:Hw; [discriminate |].
  apply Z.eqb_neq in Hz. apply Z.ltb_ge in Hw.
  revert Hacc. unfold copyLimited.
  assert (Hlen : Z.of_nat (length (firstn (Z.to_nat (Length hdr)) (avail conn)))
                 <= Z.of_nat (Z.to_nat (Length hdr)))
    by (apply inj_le, firstn_le_length).
  destruct H1 as [H0 [H2 H3]].
  assert (Hpos : 0 < Length hdr) by lia.
  rewrite Z2Nat.id in Hlen by lia.
  assert (Hsub : sub32 (recvWindow s1) (Length hdr)
                 = recvWindow s1 - Length hdr)
    by (apply wrap32_small; lia).
  destruct (Z.of_nat (length (avail conn)) <? Length hdr);
    [destruct (failure conn); [discriminate |] |];
    intros _; unfold recvInvariant, bufBytes in *; lay_out s1;
    cbn [snd recvWindow recvBuf session asyncNotifyRecv set_recvNotifyCh
         set_recvWindow set_recvBuf MaxStreamWindowSize] in *;
    rewrite Hsub, length_app; repeat split; try assumption; lia.
Qed.

Lemma step_recvInvariant (o : op) (s : Stream) :
  opWellFormed o = true ->
  isRefused (fst (step o s)) = false ->
  recvInvariant s -> recvInvariant (snd (step o s)).
Proof.
  intros Hwf Hacc Hinv.
  assert (Hkeeps : forall s' : Stream, keepsRecv s s' -> recvInvariant s')
    by (intros s' Hk; exact (keepsRecv_recvInvariant s s' Hk Hinv)).
  destruct o; unfold step in *; cbn [snd].
  - rewrite observeRead_snd. apply Read_recvInvariant. exact Hinv.
  - rewrite observeRead_snd. apply Read_wake_recvInvariant. exact Hinv.
  - apply Hkeeps, Write_loop_keepsRecv.
  - apply Hkeeps, write_keepsRecv.
  - apply Hkeeps, write_wake_keepsRecv.
  - apply Hkeeps. pose proof (Close_keepsRecv s) as H.
    destruct (Close s) as [[err |] s1]; exact H.
  - apply Hkeeps, forceClose_keepsRecv.
  - apply Hkeeps, processFlags_keepsRecv.
  - apply Hkeeps, incrSendWindow_keepsRecv.
  - pose proof (readData_recvInvariant hdr flags conn s) as H.
    destruct (readData hdr flags conn s) as [[e |] s1];
      cbn [fst snd isRefused] in *; [discriminate |].
    apply H; [| reflexivity | exact Hinv].
    cbn [opWellFormed] in Hwf. unfold isUint32 in Hwf.
    apply andb_true_iff in Hwf. destruct Hwf as [Hwf _].
    apply Z.leb_le. exact Hwf.
  - apply sendWindowUpdate_recvInvariant. exact Hinv.
  - apply Hkeeps, Shrink_keepsRecv.
  - apply Hkeeps, SetDeadline_keepsRecv.
  - apply Hkeeps, SetReadDeadline_keepsRecv.
  - apply Hkeeps, SetWriteDeadline_keepsRecv.
  - apply Hkeeps, fireTimers_keepsRecv.
Qed.

Lemma run_recvInvariant (ops : list op) :
  forall s : Stream,
    forallb opWellFormed ops = true ->
    allAccepted (fst (run ops s)) = true ->
    recvInvariant s -> recvInvariant (snd (run ops s)).
Proof.
  induction ops as [| o ops IH]; intros s; simpl; [auto |].
  intros Hwf. apply andb_true_iff in Hwf. destruct Hwf as [Hwf Hwfs].
  pose proof (step_recvInvariant o s Hwf) as Hstep.
  destruct (step o s) as [ob s1]. cbn [fst snd] in Hstep.
  specialize (IH s1 Hwfs). destruct (run ops s1) as [obs s2].
  cbn [fst snd] in IH.
  destruct ob; cbn [fst snd allAccepted forallb isRefused negb andb] in *;
    intros Hacc Hinv; try discriminate; auto.
Qed.

(** X5: in every run of a stream created under a session whose window is at
    least the initial one and fits 32 bits, and in which each data frame was
    accepted and carried a 32-bit length, the receive window stays
    non-negative and, together with the
    bytes buffered, never exceeds the configured window; so the delta of the
    next window update is computed without wrap-around and is not
    negative. *)
Theorem receive_window_bounded (ops : list op) (c : Session) (i : Z)
    (st : streamState) :
  initialStreamWindow <= MaxStreamWindowSize c < 4294967296 ->
  forallb opWellFormed ops = true ->
  allAccepted (fst (run ops (newStream c i st))) = true ->
  0 <= recvWindow (snd (run ops (newStream c i st)))
  /\ Z.of_nat (length (bufBytes (snd (run ops (newStream c i st)))))
     + recvWindow (snd (run ops (newStream c i st)))
     <= MaxStreamWindowSize c
  /\ windowDelta (snd (run ops (newStream c i st)))
     = MaxStreamWindowSize c
       - Z.of_nat (length (bufBytes (snd (run ops (newStream c i st)))))
       - recvWindow (snd (run ops (newStream c i st)))
  /\ 0 <= windowDelta (snd (run ops (newStream c i st))).
Proof.
  intros Hmax Hwf Hacc.
  assert (H0 : recvInvariant (newStream c i st)).
  { unfold recvInvariant. cbn. unfold initialStreamWindow in *. lia. }
  pose proof (run_recvInvariant ops _ Hwf Hacc H0) as [H1 [H2 H3]].
  destruct (run_advances ops (newStream c i st)) as [_ [_ [Hmx _]]].
  cbn [newStream session] in Hmx. rewrite Hmx in *.
  set (s' := snd (run ops (newStream c i st))) in *.
  assert (Hlen : bufLen s' = Z.of_nat (length (bufBytes s'))).
  { unfold bufLen, bufBytes, uint32_of_len in *.
    destruct (recvBuf s'); [apply wrap32_small; lia | reflexivity]. }
  assert (Hd : windowDelta s'
               = MaxStreamWindowSize c - Z.of_nat (length (bufBytes s'))
                 - recvWindow s').
  { rewrite <- Hlen. rewrite <- Hmx. apply windowDelta_exact; lia. }
  repeat split; try assumption; lia.
Qed.

Lemma receive_window_bounded_witness :
  recvWindow
    (snd (run [OpReadData (encode typeData 0 1 2) 0 connHi; OpRead 1]
              (newStream quietSession 1 streamEstablished))) = 262142
  /\ windowDelta
       (snd (run [OpReadData (encode typeData 0 1 2) 0 connHi; OpRead 1]
                 (newStream quietSession 1 streamEstablished))) = 1.
Proof.
  assert (Hmax : initialStreamWindow <= MaxStreamWindowSize quietSession
                 < 4294967296) by (split; [discriminate | reflexivity]).
  pose proof (receive_window_bounded
                [OpReadData (encode typeData 0 1 2) 0 connHi; OpRead 1]
                quietSession 1 streamEstablished Hmax eq_refl eq_refl)
    as [_ [_ [Hd _]]].
  split; [reflexivity |]. rewrite Hd. reflexivity.
Defined.

(** ** Write: framing under the send window *)

Lemma uint32_of_len_le {A : Type} (l : list A) :
  0 <= uint32_of_len l <= Z.of_nat (length l).
Proof.
  unfold uint32_of_len, wrap32. split.
  - apply Z.mod_pos_bound. reflexivity.
  - apply Z.mod_le; lia.
Qed.

(** A step of [write] that reaches the framing branch and whose frame the
    session takes. *)
Lemma write_frames (b : list Byte.byte) (s : Stream) :
  writable (state s) = true -> isWriteTimedOut s = false ->
  0 < sendWindow s < 4294967296 ->
  waitErr (session s) (length (sent (session s))) = None ->
  write b s
  = (WriteReturn (Z.min (sendWindow s) (uint32_of_len b)) None,
     afterFrame (Z.min (sendWindow s) (uint32_of_len b)) b s).
Proof.
  intros Hst Hto Hw Hsend.
  pose proof (uint32_of_len_le b) as Hu.
  assert (Hsub : add32 (sendWindow s)
                   (not32 (sub32 (Z.min (sendWindow s) (uint32_of_len b)) 1))
                 = sendWindow s - Z.min (sendWindow s) (uint32_of_len b))
    by (apply add32_not32_pred; lia).
  unfold write. rewrite Hto. unfold write_loop, afterFrame.
  assert (Hnz : negb (sendWindow s =? 0) = true)
    by (apply negb_true_iff, Z.eqb_neq; lia).
  rewrite Hnz. clear Hnz Hu.
  generalize dependent (Z.min (sendWindow s) (uint32_of_len b)).
  intros n Hsub.
  lay_out s. cbn [state sendWindow session waitErr sent id] in *.
  unfold sendFlags, waitForSendErr, writable in *.
  destruct st; try discriminate; cbn - [Z.to_nat add32 not32 sub32] in *;
    rewrite Hsend; cbn - [Z.to_nat add32 not32 sub32];
    rewrite Hsub; reflexivity.
Qed.

Lemma afterFrame_facts (n : Z) (b : list Byte.byte) (s : Stream) :
  writable (state s) = true ->
  writable (state (afterFrame n b s)) = true
  /\ isWriteTimedOut (afterFrame n b s) = isWriteTimedOut s
  /\ sendWindow (afterFrame n b s) = sendWindow s - n
  /\ sent (session (afterFrame n b s))
     = sent (session s)
         ++ [mkFrame (encode typeData (fst (sendFlags s)) (id s) n)
               (Some (firstn (Z.to_nat n) b))].
Proof.
  lay_out s. unfold afterFrame, sendFlags, waitForSendErr, writable.
  cbn [state]. destruct st; intros H; try discriminate;
    repeat split; reflexivity.
Qed.

Lemma Write_loop_finished (fuel : nat) (total : Z) (b : list Byte.byte)
    (s : Stream) :
  Z.of_nat (length b) <= total ->
  Write_loop fuel total b s = (WriteDone total None, s).
Proof.
  intros H. assert (Hc : (total <? Z.of_nat (length b)) = false)
    by (apply Z.ltb_ge; exact H).
  destruct fuel; cbn [Write_loop]; rewrite Hc; reflexivity.
Qed.

(** X6: when the send window covers the whole buffer (of at least one byte
    and less than 4 GiB), on a stream that accepts writes, with no deadline
    fired and a session that takes the frame, [Write] returns len(b) and nil
    after handing exactly one data frame to the session; its body is the
    whole buffer, it carries the pending SYN or ACK, and the send window is
    lowered by len(b). *)
Theorem Write_whole_buffer (fuel : nat) (b : list Byte.byte) (s : Stream) :
  writable (state s) = true -> isWriteTimedOut s = false ->
  b <> [] -> Z.of_nat (length b) <= sendWindow s < 4294967296 ->
  waitErr (session s) (length (sent (session s))) = None ->
  fst (Write (S fuel) b s) = WriteDone (Z.of_nat (length b)) None
  /\ sent (session (snd (Write (S fuel) b s)))
     = sent (session s)
         ++ [mkFrame (encode typeData (fst (sendFlags s)) (id s)
                       (Z.of_nat (length b))) (Some b)]
  /\ sendWindow (snd (Write (S fuel) b s))
     = sendWindow s - Z.of_nat (length b).
Proof.
  intros Hst Hto Hb Hw Hsend.
  assert (Hpos : 0 < Z.of_nat (length b))
    by (destruct b; [congruence | cbn [length]; lia]).
  assert (Hu : uint32_of_len b = Z.of_nat (length b))
    by (apply wrap32_small; lia).
  assert (Hmin : Z.min (sendWindow s) (uint32_of_len b) = Z.of_nat (length b))
    by lia.
  unfold Write. cbn [Write_loop].
  assert (Hc : (0 <? Z.of_nat (length b)) = true) by (apply Z.ltb_lt; lia).
  rewrite Hc. change (skipn (Z.to_nat 0) b) with b.
  rewrite (write_frames b s Hst Hto) by (assumption || lia).
  rewrite Hmin, Z.add_0_l, Write_loop_finished by lia.
  destruct (afterFrame_facts (Z.of_nat (length b)) b s Hst)
    as [_ [_ [Hsw Hsent]]].
  cbn [fst snd]. rewrite Hsw, Hsent, Nat2Z.id, firstn_all.
  repeat split; reflexivity.
Qed.

Lemma Write_whole_buffer_witness :
  fst (Write 1 [Byte.x68; Byte.x69] (newStream quietSession 1 streamInit))
  = WriteDone 2 None
  /\ sent (session (snd (Write 1 [Byte.x68; Byte.x69]
                           (newStream quietSession 1 streamInit))))
     = [mkFrame (encode typeData flagSYN 1 2) (Some [Byte.x68; Byte.x69])].
Proof.
  assert (Hb : [Byte.x68; Byte.x69] <> []) by discriminate.
  assert (Hw : Z.of_nat (length [Byte.x68; Byte.x69])
               <= sendWindow (newStream quietSession 1 streamInit)
               < 4294967296) by (split; [discriminate | reflexivity]).
  pose proof (Write_whole_buffer 0 [Byte.x68; Byte.x69]
                (newStream quietSession 1 streamInit)
                eq_refl eq_refl Hb Hw eq_refl) as [H1 [H2 _]].
  split; [exact H1 | exact H2].
Defined.

(** X7: when the send window is open but smaller than the buffer (of less
    than 4 GiB), [Write] hands one data frame of exactly sendWindow bytes to
    the session, the first bytes of the buffer, and then parks with that many
    bytes accounted for: the window is 0 and a pending send notification has
    been taken. *)
Theorem Write_parks_on_short_window (fuel : nat) (b : list Byte.byte)
    (s : Stream) :
  writable (state s) = true -> isWriteTimedOut s = false ->
  0 < sendWindow s < Z.of_nat (length b) ->
  Z.of_nat (length b) < 4294967296 ->
  waitErr (session s) (length (sent (session s))) = None ->
  Write (S (S fuel)) b s
  = (WriteParked (sendWindow s),
     set_sendNotifyCh false (afterFrame (sendWindow s) b s))
  /\ sent (session (snd (Write (S (S fuel)) b s)))
     = sent (session s)
         ++ [mkFrame (encode typeData (fst (sendFlags s)) (id s)
                       (sendWindow s))
               (Some (firstn (Z.to_nat (sendWindow s)) b))]
  /\ sendWindow (snd (Write (S (S fuel)) b s)) = 0.
Proof.
  intros Hst Hto Hw Hlen Hsend.
  assert (Hu : uint32_of_len b = Z.of_nat (length b))
    by (apply wrap32_small; lia).
  assert (Hmin : Z.min (sendWindow s) (uint32_of_len b) = sendWindow s)
    by lia.
  destruct (afterFrame_facts (sendWindow s) b s Hst)
    as [Hst' [Hto' [Hsw Hsent]]].
  assert (Hfirst :
    Write (S (S fuel)) b s
    = (WriteParked (sendWindow s),
       set_sendNotifyCh false (afterFrame (sendWindow s) b s))).
  { unfold Write. cbn [Write_loop].
    assert (Hc : (0 <? Z.of_nat (length b)) = true) by (apply Z.ltb_lt; lia).
    rewrite Hc. change (skipn (Z.to_nat 0) b) with b.
    rewrite (write_frames b s Hst Hto) by (assumption || lia).
    rewrite Hmin, Z.add_0_l.
    assert (Hc' : (sendWindow s <? Z.of_nat (length b)) = true)
      by (apply Z.ltb_lt; lia).
    rewrite Hc'. unfold write. rewrite Hto', Hto. unfold write_loop.
    rewrite Hsw, Z.sub_diag. cbn [Z.eqb negb].
    revert Hst'. unfold writable.
    destruct (state (afterFrame (sendWindow s) b s));
      intros H; try discriminate; reflexivity. }
  rewrite Hfirst. cbn [snd].
  split; [reflexivity | split].
  - change (session (set_sendNotifyCh false (afterFrame (sendWindow s) b s)))
      with (session (afterFrame (sendWindow s) b s)).
    exact Hsent.
  - change (sendWindow
              (set_sendNotifyCh false (afterFrame (sendWindow s) b s)))
      with (sendWindow (afterFrame (sendWindow s) b s)).
    rewrite Hsw. lia.
Qed.

Lemma Write_parks_on_short_window_witness :
  fst (Write 2 [Byte.x68; Byte.x69; Byte.x21]
         (set_sendWindow 2 (newStream quietSession 1 streamEstablished)))
  = WriteParked 2
  /\ sent (session
             (snd (Write 2 [Byte.x68; Byte.x69; Byte.x21]
                     (set_sendWindow 2
                        (newStream quietSession 1 streamEstablished)))))
     = [mkFrame (encode typeData 0 1 2) (Some [Byte.x68; Byte.x69])].
Proof.
  assert (Hw : 0 < sendWindow (set_sendWindow 2
                                 (newStream quietSession 1 streamEstablished))
               < Z.of_nat (length [Byte.x68; Byte.x69; Byte.x21]))
    by (split; reflexivity).
  pose proof (Write_parks_on_short_window 0 [Byte.x68; Byte.x69; Byte.x21]
                (set_sendWindow 2 (newStream quietSession 1 streamEstablished))
                eq_refl eq_refl Hw eq_refl eq_refl) as [H1 [H2 _]].
  split; [rewrite H1; reflexivity | exact H2].
Defined.

(** ** Write: the bytes framed are the bytes accounted for *)

Lemma dataBytes_waitForSendErr (hdr : header) (body : option (list Byte.byte))
    (s : Stream) :
  dataBytes (snd (waitForSendErr hdr body s))
  = dataBytes s ++ frameData (mkFrame hdr body).
Proof.
  unfold dataBytes, waitForSendErr. lay_out s. cbn [snd session sent set_session set_sent].
  rewrite flat_map_app. cbn [flat_map]. rewrite app_nil_r. reflexivity.
Qed.

Lemma firstn_plus {A : Type} (a c : nat) :
  forall l : list A, firstn (a + c) l = firstn a l ++ firstn c (skipn a l).
Proof.
  induction a as [| a IH]; intros l; [reflexivity |].
  destruct l as [| x l]; cbn [Nat.add firstn skipn app].
  - rewrite firstn_nil. reflexivity.
  - rewrite IH. reflexivity.
Qed.

(** What one step of [write] adds to the data handed to the session, when
    the session takes every frame. *)
Lemma write_accounts (b : list Byte.byte) (s : Stream) :
  0 <= sendWindow s ->
  (forall n : nat, waitErr (session s) n = None) ->
  match fst (write b s) with
  | WriteReturn n _ =>
      0 <= n <= Z.of_nat (length b)
      /\ dataBytes (snd (write b s)) = dataBytes s ++ firstn (Z.to_nat n) b
  | WriteBlocked => dataBytes (snd (write b s)) = dataBytes s
  end
  /\ 0 <= sendWindow (snd (write b s))
  /\ (forall n : nat, waitErr (session (snd (write b s))) n = None).
Proof.
  intros Hw Hsend.
  assert (Hquiet : forall e : error,
            (0 <= 0 <= Z.of_nat (length b)
             /\ dataBytes s = dataBytes s ++ firstn (Z.to_nat 0) b)
            /\ 0 <= sendWindow s
            /\ (forall n : nat, waitErr (session s) n = None)).
  { intros _. cbn [Z.to_nat firstn]. rewrite app_nil_r.
    repeat split; auto; lia. }
  unfold write. destruct (isWriteTimedOut s); [exact (Hquiet timeoutError) |].
  unfold write_loop.
  destruct (state s) eqn:Hst;
    try exact (Hquiet ErrStreamClosed);
    (destruct (sendWindow s =? 0) eqn:Hz; cbn [negb];
     [ lay_out s; cbn in *; repeat split; auto |]);
    pose proof (uint32_of_len_le b) as Hu;
    apply Z.eqb_neq in Hz;
    set (n := Z.min (sendWindow s) (uint32_of_len b));
    assert (Hn : 0 <= n <= Z.of_nat (length b)) by (unfold n; lia);
    clearbody n;
    unfold sendFlags; rewrite Hst;
    match goal with
    | |- context [waitForSendErr ?h ?bd ?s1] =>
        pose proof (dataBytes_waitForSendErr h bd s1) as Hd;
        unfold waitForSendErr in *
    end;
    cbn [session set_state set_session set_sent waitErr sent] in *;
    rewrite Hsend; cbn [fst snd] in *;
    (split; [split; [exact Hn |] | split]);
    try (lay_out s; cbn [set_sendWindow sendWindow session waitErr
                         set_session set_sent] in *;
         first [apply wrap32_bounds | exact Hsend]);
    try (lay_out s; unfold dataBytes in *;
         cbn [set_sendWindow session set_session set_sent sent frameData
              fhdr fbody MsgType] in *;
         exact Hd).
Qed.

Lemma Write_loop_accounts (fuel : nat) (b : list Byte.byte) :
  forall (total : Z) (s : Stream),
    0 <= total <= Z.of_nat (length b) ->
    0 <= sendWindow s ->
    (forall n : nat, waitErr (session s) n = None) ->
    total <= WriteOutcome_total (fst (Write_loop fuel total b s))
          <= Z.of_nat (length b)
    /\ dataBytes (snd (Write_loop fuel total b s))
       = dataBytes s
           ++ firstn (Z.to_nat (WriteOutcome_total
                                  (fst (Write_loop fuel total b s)) - total))
                (skipn (Z.to_nat total) b).
Proof.
  assert (Hstay : forall (total : Z) (s : Stream),
            0 <= total <= Z.of_nat (length b) ->
            total <= total <= Z.of_nat (length b)
            /\ dataBytes s
               = dataBytes s
                   ++ firstn (Z.to_nat (total - total))
                        (skipn (Z.to_nat total) b)).
  { intros total s Ht. rewrite Z.sub_diag. cbn [Z.to_nat firstn].
    rewrite app_nil_r. split; [lia | reflexivity]. }
  induction fuel as [| fuel IH]; intros total s Ht Hw Hsend;
    cbn [Write_loop]; destruct (total <? Z.of_nat (length b)) eqn:Hc;
    cbn [fst snd WriteOutcome_total]; try (apply Hstay; exact Ht).
  pose proof (write_accounts (skipn (Z.to_nat total) b) s Hw Hsend)
    as [Hstep [Hw' Hsend']].
  assert (Hlen : Z.of_nat (length (skipn (Z.to_nat total) b))
                 = Z.of_nat (length b) - total)
    by (rewrite length_skipn; lia).
  destruct (write (skipn (Z.to_nat total) b) s) as [[n [e |] |] s1];
    cbn [fst snd WriteOutcome_total] in *.
  - destruct Hstep as [Hn Hd].
    replace (total + n - total) with n by lia.
    split; [lia | exact Hd].
  - destruct Hstep as [Hn Hd].
    assert (Ht' : 0 <= total + n <= Z.of_nat (length b)) by lia.
    destruct (IH (total + n) s1 Ht' Hw' Hsend') as [Hr Hd'].
    split; [lia |].
    rewrite Hd', Hd, <- app_assoc. f_equal.
    set (T := WriteOutcome_total (fst (Write_loop fuel (total + n) b s1)))
      in *.
    replace (Z.to_nat (T - total))
      with (Z.to_nat n + Z.to_nat (T - (total + n)))%nat by lia.
    rewrite firstn_plus, skipn_skipn.
    replace (Z.to_nat n + Z.to_nat total)%nat with (Z.to_nat (total + n))
      by lia.
    reflexivity.
  - rewrite Z.sub_diag. cbn [Z.to_nat firstn]. rewrite app_nil_r.
    split; [lia | exact Hstep].
Qed.

(** X8: on a stream whose send window is not negative and whose session
    takes every frame, whatever [Write] has done after any number of rounds
    (returned, with or without an error, parked, or still running), the
    number of bytes it accounts for is between 0 and len(b), and the bodies
    of the data frames it handed to the session, in order, are exactly that
    many first bytes of the buffer. *)
Theorem Write_accounts_for_data (fuel : nat) (b : list Byte.byte)
    (s : Stream) :
  0 <= sendWindow s ->
  (forall n : nat, waitErr (session s) n = None) ->
  0 <= WriteOutcome_total (fst (Write fuel b s)) <= Z.of_nat (length b)
  /\ dataBytes (snd (Write fuel b s))
     = dataBytes s
         ++ firstn (Z.to_nat (WriteOutcome_total (fst (Write fuel b s)))) b.
Proof.
  intros Hw Hsend. unfold Write.
  assert (Ht : 0 <= 0 <= Z.of_nat (length b)) by lia.
  destruct (Write_loop_accounts fuel b 0 s Ht Hw Hsend) as [Hr Hd].
  split; [exact Hr |].
  rewrite Hd, Z.sub_0_r. reflexivity.
Qed.

Lemma Write_accounts_for_data_witness :
  dataBytes (snd (Write 5 [Byte.x68; Byte.x69; Byte.x21]
                    (set_sendWindow 2
                       (newStream quietSession 1 streamEstablished))))
  = [Byte.x68; Byte.x69].
Proof.
  assert (Hw : 0 <= sendWindow (set_sendWindow 2
                                  (newStream quietSession 1 streamEstablished)))
    by discriminate.
  pose proof (Write_accounts_for_data 5 [Byte.x68; Byte.x69; Byte.x21]
                (set_sendWindow 2 (newStream quietSession 1 streamEstablished))
                Hw (fun _ => eq_refl)) as [_ H].
  rewrite H. reflexivity.
Defined.

(** ** Close and forceClose *)

(** X9: [Close] on a stream in SYNSent, SYNReceived, Established or
    RemoteClose hands exactly one frame to the session, a window update of
    length 0 whose flags are FIN alone (a stream closed in SYNReceived never
    sends its ACK), wakes both waiters, and returns nil whatever the session
    answers; the state becomes LocalClose, or Closed from RemoteClose, and
    only then the session is asked to remove the stream. *)
Theorem Close_sends_FIN (s : Stream) :
  state s = streamSYNSent \/ state s = streamSYNReceived
  \/ state s = streamEstablished \/ state s = streamRemoteClose ->
  fst (Close s) = CloseReturn None
  /\ sent (session (snd (Close s)))
     = sent (session s)
         ++ [mkFrame (encode typeWindowUpdate flagFIN (id s) 0) None]
  /\ state (snd (Close s))
     = (if streamState_eqb (state s) streamRemoteClose
        then streamClosed else streamLocalClose)
  /\ closedStreams (session (snd (Close s)))
     = closedStreams (session s)
         ++ (if streamState_eqb (state s) streamRemoteClose
             then [id s] else [])
  /\ recvNotifyCh (snd (Close s)) = true
  /\ sendNotifyCh (snd (Close s)) = true.
Proof.
  lay_out s. cbn [state]. unfold Close, Close_SEND_CLOSE, sendClose.
  intros [-> | [-> | [-> | ->]]]; cbn; rewrite ?app_nil_r;
    repeat split; reflexivity.
Qed.

Lemma Close_sends_FIN_witness :
  sent (session (snd (Close (newStream quietSession 3 streamSYNReceived))))
  = [mkFrame (encode typeWindowUpdate flagFIN 3 0) None]
  /\ state (snd (Close (newStream quietSession 3 streamSYNReceived)))
     = streamLocalClose.
Proof.
  pose proof (Close_sends_FIN (newStream quietSession 3 streamSYNReceived)
                (or_intror (or_introl eq_refl))) as [_ [H1 [H2 _]]].
  split; [exact H1 | exact H2].
Defined.

(** X10: [forceClose] puts the stream in Closed from every state, Reset
    included, hands nothing to the session and wakes both waiters.  From then
    on, when [recvLock] is free, a [Write] of at least one byte returns
    StreamClosed (not ConnectionReset) with no byte written, and [Read]
    returns EOF as soon as the buffer is empty, each unless the deadline of
    the call has fired. *)
Theorem forceClose_then_io (s : Stream) :
  state (forceClose s) = streamClosed
  /\ session (forceClose s) = session s
  /\ recvNotifyCh (forceClose s) = true
  /\ sendNotifyCh (forceClose s) = true
  /\ (recvLock s = false -> isWriteTimedOut s = false ->
      forall (fuel : nat) (b : list Byte.byte), b <> [] ->
        Write (S fuel) b (forceClose s)
        = (WriteDone 0 (Some ErrStreamClosed), forceClose s))
  /\ (recvLock s = false -> isReadTimedOut s = false -> bufBytes s = [] ->
      forall blen : nat,
        Read blen (forceClose s) = (ReadReturn [] (Some EOF), forceClose s)).
Proof.
  lay_out s. unfold forceClose, isWriteTimedOut, isReadTimedOut, bufBytes.
  simpl. repeat split.
  - intros _ Hto fuel b Hb. destruct b as [| x b]; [congruence |].
    unfold Write. cbn [Write_loop].
    change (0 <? Z.of_nat (length (x :: b))) with true. cbv iota.
    change (skipn (Z.to_nat 0) (x :: b)) with (x :: b).
    unfold write, isWriteTimedOut. simpl. rewrite Hto. reflexivity.
  - intros Hlk Hto Hb blen. subst lk. unfold Read, isReadTimedOut. simpl.
    rewrite Hto. unfold Read_loop. simpl.
    destruct rb as [[| x l] |]; try discriminate; reflexivity.
Qed.

Lemma forceClose_then_io_witness :
  Write 1 [Byte.x68] (forceClose (newStream quietSession 1 streamReset))
  = (WriteDone 0 (Some ErrStreamClosed),
     forceClose (newStream quietSession 1 streamReset))
  /\ Read 4 (forceClose (newStream quietSession 1 streamReset))
     = (ReadReturn [] (Some EOF),
        forceClose (newStream quietSession 1 streamReset)).
Proof.
  assert (Hb : [Byte.x68] <> []) by discriminate.
  destruct (forceClose_then_io (newStream quietSession 1 streamReset))
    as [_ [_ [_ [_ [Hw Hr]]]]].
  split; [exact (Hw eq_refl eq_refl 0%nat [Byte.x68] Hb) |].
  exact (Hr eq_refl eq_refl eq_refl 4%nat).
Defined.

(** ** Inbound flags *)

(** X11: a FIN that arrives in Init, RemoteClose, Closed or Reset is
    refused: [processFlags] returns UnexpectedFlag, writes one line to the
    log, leaves the state as it was and does not ask the session to remove
    the stream; an RST carried by the same frame is not acted on. *)
Theorem processFlags_unexpected_FIN (flags : Z) (s : Stream) :
  hasFlag flags flagFIN = true ->
  state s = streamInit \/ state s = streamRemoteClose
  \/ state s = streamClosed \/ state s = streamReset ->
  fst (processFlags flags s) = Some ErrUnexpectedFlag
  /\ state (snd (processFlags flags s)) = state s
  /\ closedStreams (session (snd (processFlags flags s)))
     = closedStreams (session s)
  /\ logged (session (snd (processFlags flags s)))
     = logged (session s) ++ [LogUnexpectedFIN (state s)]
  /\ recvNotifyCh (snd (processFlags flags s)) = recvNotifyCh s
  /\ sendNotifyCh (snd (processFlags flags s)) = sendNotifyCh s.
Proof.
  intros Hfin. lay_out s. cbn [state]. unfold processFlags. rewrite Hfin.
  intros [-> | [-> | [-> | ->]]];
    destruct (hasFlag flags flagACK), (hasFlag flags flagRST);
    repeat split; reflexivity.
Qed.

Lemma processFlags_unexpected_FIN_witness :
  fst (processFlags (Z.lor flagFIN flagRST)
         (newStream quietSession 1 streamRemoteClose))
  = Some ErrUnexpectedFlag
  /\ state (snd (processFlags (Z.lor flagFIN flagRST)
                   (newStream quietSession 1 streamRemoteClose)))
     = streamRemoteClose.
Proof.
  pose proof (processFlags_unexpected_FIN (Z.lor flagFIN flagRST)
                (newStream quietSession 1 streamRemoteClose) eq_refl
                (or_intror (or_introl eq_refl))) as [H1 [H2 _]].
  split; [exact H1 | exact H2].
Defined.

(** X12: whenever [processFlags] returns nil on flags that carry RST, the
    stream is in Reset, both waiters are woken, and the session is asked to
    remove the stream exactly once, also when a FIN of the same frame had
    already closed it. *)
Theorem processFlags_RST (flags : Z) (s : Stream) :
  hasFlag flags flagRST = true ->
  fst (processFlags flags s) = None ->
  state (snd (processFlags flags s)) = streamReset
  /\ closedStreams (session (snd (processFlags flags s)))
     = closedStreams (session s) ++ [id s]
  /\ recvNotifyCh (snd (processFlags flags s)) = true
  /\ sendNotifyCh (snd (processFlags flags s)) = true.
Proof.
  intros Hrst. lay_out s. unfold processFlags. rewrite Hrst.
  destruct (hasFlag flags flagACK), (hasFlag flags flagFIN), st;
    cbn; intros H; try discriminate; repeat split; reflexivity.
Qed.

Lemma processFlags_RST_witness :
  state (snd (processFlags (Z.lor flagFIN flagRST)
                (newStream quietSession 1 streamLocalClose)))
  = streamReset
  /\ closedStreams
       (session (snd (processFlags (Z.lor flagFIN flagRST)
                        (newStream quietSession 1 streamLocalClose))))
     = [1].
Proof.
  pose proof (processFlags_RST (Z.lor flagFIN flagRST)
                (newStream quietSession 1 streamLocalClose) eq_refl eq_refl)
    as [H1 [H2 _]].
  split; [exact H1 | exact H2].
Defined.

(** ** Data frames *)

(** X13: a data frame of at least one byte that fits the receive window and
    whose flags are processed without error is accepted when the transport
    delivers all its bytes or ends cleanly before: the bytes delivered, at
    most Length of them, are appended to the buffer in order, the reader is
    notified, and the receive window is lowered by the full Length, also
    when the transport ended early. *)
Theorem readData_accepts (hdr : header) (flags : Z) (conn : Conn)
    (s : Stream) :
  fst (processFlags flags s) = None ->
  0 < Length hdr <= recvWindow s -> recvWindow s < 4294967296 ->
  Length hdr <= Z.of_nat (length (avail conn)) \/ failure conn = None ->
  fst (readData hdr flags conn s) = None
  /\ bufBytes (snd (readData hdr flags conn s))
     = bufBytes s ++ firstn (Z.to_nat (Length hdr)) (avail conn)
  /\ recvWindow (snd (readData hdr flags conn s))
     = recvWindow s - Length hdr
  /\ recvNotifyCh (snd (readData hdr flags conn s)) = true
  /\ state (snd (readData hdr flags conn s))
     = state (snd (processFlags flags s)).
Proof.
  intros Hpf Hlen Hrw Hconn. unfold readData.
  pose proof (processFlags_keepsRecv flags s) as [Hw [Hb _]].
  destruct (processFlags flags s) as [[e |] s1]; cbn [fst snd] in *;
    [discriminate |].
  assert (Hz : (Length hdr =? 0) = false) by (apply Z.eqb_neq; lia).
  assert (Hlt : (recvWindow s1 <? Length hdr) = false)
    by (apply Z.ltb_ge; lia).
  rewrite Hz, Hlt. unfold copyLimited.
  assert (Hsub : sub32 (recvWindow s1) (Length hdr)
                 = recvWindow s - Length hdr)
    by (rewrite Hw; apply wrap32_small; lia).
  assert (Hcerr : (if Z.of_nat (length (avail conn)) <? Length hdr
                   then failure conn else None) = None).
  { destruct (Z.of_nat (length (avail conn)) <? Length hdr) eqn:Hc;
      [| reflexivity].
    apply Z.ltb_lt in Hc. destruct Hconn as [Hconn | Hconn];
      [lia | exact Hconn]. }
  rewrite Hcerr. rewrite <- Hb. lay_out s1.
  cbn - [sub32 Z.to_nat] in *. rewrite Hsub. repeat split; reflexivity.
Qed.

Lemma readData_accepts_witness :
  bufBytes (snd (readData (encode typeData 0 1 5) 0 connHi
                   (newStream quietSession 1 streamEstablished)))
  = [Byte.x68; Byte.x69]
  /\ recvWindow (snd (readData (encode typeData 0 1 5) 0 connHi
                        (newStream quietSession 1 streamEstablished)))
     = 262139.
Proof.
  assert (Hlen : 0 < Length (encode typeData 0 1 5)
                 <= recvWindow (newStream quietSession 1 streamEstablished))
    by (split; [reflexivity | discriminate]).
  pose proof (readData_accepts (encode typeData 0 1 5) 0 connHi
                (newStream quietSession 1 streamEstablished)
                eq_refl Hlen eq_refl (or_intror eq_refl)) as [_ [H1 [H2 _]]].
  split; [exact H1 | exact H2].
Defined.

(** X14: when the transport fails before it has delivered the Length bytes
    of a data frame that fits the window, [readData] returns the error of
    the transport and logs it; the bytes that did arrive stay in the buffer,
    where [Read] will find them, and the receive window is not lowered. *)
Theorem readData_transport_failure (hdr : header) (flags : Z) (conn : Conn)
    (s : Stream) (e : error) :
  fst (processFlags flags s) = None ->
  0 < Length hdr <= recvWindow s ->
  Z.of_nat (length (avail conn)) < Length hdr -> failure conn = Some e ->
  fst (readData hdr flags conn s) = Some e
  /\ bufBytes (snd (readData hdr flags conn s)) = bufBytes s ++ avail conn
  /\ recvWindow (snd (readData hdr flags conn s)) = recvWindow s
  /\ logged (session (snd (readData hdr flags conn s)))
     = logged (session (snd (processFlags flags s))) ++ [LogReadFailed e].
Proof.
  intros Hpf Hlen Hshort Hfail. unfold readData.
  pose proof (processFlags_keepsRecv flags s) as [Hw [Hb _]].
  destruct (processFlags flags s) as [[e' |] s1]; cbn [fst snd] in *;
    [discriminate |].
  assert (Hz : (Length hdr =? 0) = false) by (apply Z.eqb_neq; lia).
  assert (Hlt : (recvWindow s1 <? Length hdr) = false)
    by (apply Z.ltb_ge; lia).
  assert (Hc : (Z.of_nat (length (avail conn)) <? Length hdr) = true)
    by (apply Z.ltb_lt; lia).
  rewrite Hz, Hlt. unfold copyLimited. rewrite Hc, Hfail.
  rewrite firstn_all2 by lia.
  rewrite <- Hb, <- Hw. lay_out s1. repeat split; reflexivity.
Qed.

Lemma readData_transport_failure_witness :
  fst (readData (encode typeData 0 1 5) 0
         (mkConn [Byte.x68; Byte.x69] (Some (ErrSession 7)))
         (newStream quietSession 1 streamEstablished))
  = Some (ErrSession 7)
  /\ bufBytes (snd (readData (encode typeData 0 1 5) 0
                      (mkConn [Byte.x68; Byte.x69] (Some (ErrSession 7)))
                      (newStream quietSession 1 streamEstablished)))
     = [Byte.x68; Byte.x69].
Proof.
  assert (Hlen : 0 < Length (encode typeData 0 1 5)
                 <= recvWindow (newStream quietSession 1 streamEstablished))
    by (split; [reflexivity | discriminate]).
  pose proof (readData_transport_failure (encode typeData 0 1 5) 0
                (mkConn [Byte.x68; Byte.x69] (Some (ErrSession 7)))
                (newStream quietSession 1 streamEstablished) (ErrSession 7)
                eq_refl Hlen eq_refl eq_refl) as [H1 [H2 _]].
  split; [exact H1 | exact H2].
Defined.

(** ** Read *)


(** X16: when bytes are buffered, the deadline has not fired, [recvLock] is
    free and the stream is not Reset, [Read] does not park, in whatever
    state: it returns the first min(len(b), buffered) bytes of the buffer in
    order and leaves the rest for the next call; the error it returns is
    that of the window update it attempts. *)
Theorem Read_delivers_front (blen : nat) (s : Stream) :
  isReadTimedOut s = false -> recvLock s = false ->
  state s <> streamReset -> bufBytes s <> [] ->
  fst (Read blen s)
  = ReadReturn (firstn blen (bufBytes s))
      (fst (sendWindowUpdate
              (set_recvBuf (Some (skipn blen (bufBytes s))) s)))
  /\ bufBytes (snd (Read blen s)) = skipn blen (bufBytes s)
  /\ length (firstn blen (bufBytes s)) = Nat.min blen (length (bufBytes s))
  /\ recvNotifyCh (snd (Read blen s)) = true.
Proof.
  intros Hto Hlk Hst Hb. unfold Read. rewrite Hto.
  assert (Hbuf : exists x l, recvBuf s = Some (x :: l)).
  { unfold bufBytes in Hb. destruct (recvBuf s) as [[| x l] |];
      try congruence. eauto. }
  destruct Hbuf as [x [l Hrb]].
  assert (Hbb : bufBytes s = x :: l) by (unfold bufBytes; rewrite Hrb; reflexivity).
  assert (Hloop : Read_loop blen s = Read_buffered blen s).
  { unfold Read_loop. rewrite Hrb, Hlk. destruct (state s); congruence. }
  rewrite Hloop. unfold Read_buffered. rewrite Hrb, Hbb, Hlk. cbv zeta.
  pose proof (sendWindowUpdate_keeps
                (set_recvBuf (Some (skipn blen (x :: l))) s)) as [_ Hkeep].
  destruct (sendWindowUpdate (set_recvBuf (Some (skipn blen (x :: l))) s))
    as [err s2]. cbn [fst snd Read_deferred] in *.
  split; [reflexivity | split; [| split]].
  - unfold bufBytes. lay_out s2. cbn in *. rewrite Hkeep. reflexivity.
  - apply length_firstn.
  - lay_out s2. reflexivity.
Qed.

Lemma Read_delivers_front_witness :
  fst (Read 1 closedWithData) = ReadReturn [Byte.x68] None
  /\ bufBytes (snd (Read 1 closedWithData)) = [Byte.x69].
Proof.
  assert (Hst : state closedWithData <> streamReset) by discriminate.
  assert (Hb : bufBytes closedWithData <> []) by discriminate.
  pose proof (Read_delivers_front 1 closedWithData eq_refl eq_refl Hst Hb)
    as [H1 [H2 _]].
  split; [rewrite H1; reflexivity | exact H2].
Defined.

(** X17: [Shrink] cannot be observed by the reader: it keeps the buffered
    bytes, doing it twice is doing it once, and a [Read] after [Shrink]
    returns what it would have returned without, and leaves the same stream
    up to a further [Shrink]. *)
Theorem Shrink_unobservable (blen : nat) (s : Stream) :
  bufBytes (Shrink s) = bufBytes s
  /\ Shrink (Shrink s) = Shrink s
  /\ fst (Read blen (Shrink s)) = fst (Read blen s)
  /\ Shrink (snd (Read blen (Shrink s))) = Shrink (snd (Read blen s)).
Proof.
  lay_out s. unfold Shrink. cbn [recvBuf].
  destruct rb as [[| x l] |]; try (repeat split; reflexivity).
  unfold Read, isReadTimedOut, bufBytes. cbn.
  destruct (negb (rto =? 0)); [repeat split; reflexivity |].
  unfold Read_loop, Read_buffered. cbn.
  destruct lk, st; repeat split; reflexivity.
Qed.

(** ** Deadlines that are zero or in the past *)

Lemma nth_error_replaced {A : Type} (l : list A) (i : nat) (x y : A) :
  nth_error l i = Some y ->
  nth_error (firstn i l ++ x :: skipn (S i) l) i = Some x.
Proof.
  intros H.
  assert (Hlt : (i < length l)%nat) by (apply nth_error_Some; congruence).
  rewrite nth_error_app2; rewrite length_firstn, Nat.min_l by lia;
    [| lia].
  rewrite Nat.sub_diag. reflexivity.
Qed.

(** A timer that [stopTimer] has stopped does not fire. *)
Lemma fireTimer_stopped (now : Z) (i : nat) (s : Stream) :
  (forall tm : Timer,
     nth_error (runtimeTimers s) i = Some tm -> stopped tm = true) ->
  fireTimer now i s = s.
Proof.
  intros H. unfold fireTimer.
  destruct (nth_error (runtimeTimers s) i) as [tm |]; [| reflexivity].
  rewrite (H tm eq_refl), andb_false_r. reflexivity.
Qed.

(** X18: [SetReadDeadline] with the zero instant or an instant in the past
    schedules nothing and leaves no timer attached to the stream; the timer
    that was attached is stopped and cannot set the flag any more, however
    far the clock advances.  The timed-out flag is cleared for the zero
    instant and set for a past one, after which [Read] returns the timeout
    error at once, with no byte, also when bytes are buffered. *)
Theorem SetReadDeadline_cancels (now t : Z) (s : Stream) :
  t = 0 \/ t < now ->
  readTimer (snd (SetReadDeadline now t s)) = None
  /\ length (runtimeTimers (snd (SetReadDeadline now t s)))
     = length (runtimeTimers s)
  /\ isReadTimedOut (snd (SetReadDeadline now t s)) = negb (IsZero t)
  /\ (forall (i : nat) (now' : Z),
        readTimer s = Some i ->
        fireTimer now' i (snd (SetReadDeadline now t s))
        = snd (SetReadDeadline now t s))
  /\ (t <> 0 ->
      forall blen : nat,
        fst (Read blen (snd (SetReadDeadline now t s)))
        = ReadReturn [] (Some timeoutError)).
Proof.
  intros Ht.
  assert (Hbranch : IsZero t || (Until now t <? 0) = true).
  { unfold IsZero. destruct Ht as [-> | Ht]; [reflexivity |].
    apply orb_true_iff. right. apply Z.ltb_lt.
    unfold Until, minDuration, maxDuration. lia. }
  assert (Hpast : negb (IsZero t) && (Until now t <? 0) = negb (IsZero t)).
  { unfold IsZero in *. destruct (t =? 0) eqn:H0; [reflexivity |].
    cbn [orb negb andb] in *. exact Hbranch. }
  unfold SetReadDeadline. rewrite Hbranch, Hpast.
  lay_out s. cbn [readTimer setReadTimedOut set_readTimedOut runtimeTimers].
  assert (Hlen : forall k : nat, length (stopTimer k tm) = length tm).
  { intros k. unfold stopTimer.
    destruct (nth_error tm k) as [x |] eqn:Hx; [| reflexivity].
    assert (Hlt : (k < length tm)%nat) by (apply nth_error_Some; congruence).
    rewrite length_app. cbn [length].
    rewrite length_firstn, length_skipn. lia. }
  assert (Hstop : forall (k : nat) (x : Timer),
            nth_error (stopTimer k tm) k = Some x -> stopped x = true).
  { intros k x. unfold stopTimer.
    destruct (nth_error tm k) as [y |] eqn:Hy.
    - rewrite (nth_error_replaced tm k _ y Hy). intros H.
      inversion H. reflexivity.
    - rewrite Hy. discriminate. }
  split; [destruct (IsZero t), rt; reflexivity |].
  split; [destruct (IsZero t), rt; cbn; rewrite ?Hlen; reflexivity |].
  split; [destruct (IsZero t), rt; reflexivity |].
  split.
  - intros k now' Hk. inversion Hk; subst rt.
    apply fireTimer_stopped.
    destruct (IsZero t); cbn; apply Hstop.
  - intros Hnz blen. unfold IsZero.
    apply Z.eqb_neq in Hnz. rewrite Hnz.
    destruct rt; reflexivity.
Qed.

Lemma SetReadDeadline_cancels_witness :
  isReadTimedOut
    (advanceTo 5000
       (snd (SetReadDeadline 1001 0
               (snd (SetReadDeadline 1000 1010
                       (newStream quietSession 1 streamEstablished))))))
  = false
  /\ fireTimer 5000 0
       (snd (SetReadDeadline 1001 0
               (snd (SetReadDeadline 1000 1010
                       (newStream quietSession 1 streamEstablished)))))
     = snd (SetReadDeadline 1001 0
              (snd (SetReadDeadline 1000 1010
                      (newStream quietSession 1 streamEstablished)))).
Proof.
  split; [reflexivity |].
  exact (proj1 (proj2 (proj2 (proj2
           (SetReadDeadline_cancels 1001 0
              (snd (SetReadDeadline 1000 1010
                      (newStream quietSession 1 streamEstablished)))
              (or_introl eq_refl))))) 0%nat 5000 eq_refl).
Defined.

(** ** Credit from the peer *)

Lemma processFlags_keeps_send (flags : Z) (s : Stream) :
  sendWindow (snd (processFlags flags s)) = sendWindow s
  /\ isWriteTimedOut (snd (processFlags flags s)) = isWriteTimedOut s
  /\ sent (session (snd (processFlags flags s))) = sent (session s)
  /\ waitErr (session (snd (processFlags flags s))) = waitErr (session s).
Proof.
  lay_out s. unfold processFlags.
  destruct (hasFlag flags flagACK), (hasFlag flags flagFIN),
    (hasFlag flags flagRST), st; repeat split; reflexivity.
Qed.

(** X19: a window update from the peer reopens an exhausted send window.  On
    a stream whose send window is 0, when the flags of the update are
    processed without error and leave the stream writable, [incrSendWindow]
    returns nil, sets the window to the Length of the update and notifies
    the writer; the next step of [write] then frames min(Length, len(b))
    bytes instead of parking. *)
Theorem incrSendWindow_reopens (hdr : header) (flags : Z)
    (b : list Byte.byte) (s : Stream) :
  sendWindow s = 0 ->
  fst (processFlags flags s) = None ->
  writable (state (snd (processFlags flags s))) = true ->
  isWriteTimedOut s = false ->
  0 < Length hdr < 4294967296 ->
  Z.of_nat (length b) < 4294967296 ->
  waitErr (session s) (length (sent (session s))) = None ->
  fst (incrSendWindow hdr flags s) = None
  /\ sendWindow (snd (incrSendWindow hdr flags s)) = Length hdr
  /\ sendNotifyCh (snd (incrSendWindow hdr flags s)) = true
  /\ fst (write b (snd (incrSendWindow hdr flags s)))
     = WriteReturn (Z.min (Length hdr) (Z.of_nat (length b))) None.
Proof.
  intros Hw Hpf Hst Hto Hlen Hb Hsend. unfold incrSendWindow.
  pose proof (processFlags_keeps_send flags s) as [Hsw [Hto' [Hsent Hwe]]].
  destruct (processFlags flags s) as [[e |] s1]; cbn [fst snd] in *;
    [discriminate |].
  assert (Hadd : add32 (sendWindow s1) (Length hdr) = Length hdr).
  { rewrite Hsw, Hw. unfold add32. apply wrap32_small. lia. }
  set (s2 := asyncNotifySend
               (set_sendWindow (add32 (sendWindow s1) (Length hdr)) s1)).
  assert (Hs2 : sendWindow s2 = Length hdr
                /\ sendNotifyCh s2 = true
                /\ state s2 = state s1
                /\ isWriteTimedOut s2 = isWriteTimedOut s1
                /\ session s2 = session s1).
  { subst s2. lay_out s1. cbn - [add32] in *. rewrite Hadd.
    repeat split; reflexivity. }
  destruct Hs2 as [H1 [H2 [H3 [H4 H5]]]].
  split; [reflexivity | split; [exact H1 | split; [exact H2 |]]].
  rewrite write_frames.
  - cbn [fst]. rewrite H1. unfold uint32_of_len.
    rewrite (wrap32_small (Z.of_nat (length b))) by lia. reflexivity.
  - rewrite H3. exact Hst.
  - rewrite H4, Hto'. exact Hto.
  - rewrite H1. exact Hlen.
  - rewrite H5, Hwe, Hsent. exact Hsend.
Qed.

Lemma incrSendWindow_reopens_witness :
  fst (write [Byte.x68; Byte.x69; Byte.x21]
         (snd (incrSendWindow (encode typeWindowUpdate 0 1 2) 0
                 (set_sendWindow 0
                    (newStream quietSession 1 streamEstablished)))))
  = WriteReturn 2 None.
Proof.
  assert (Hlen : 0 < Length (encode typeWindowUpdate 0 1 2) < 4294967296)
    by (split; reflexivity).
  exact (proj2 (proj2 (proj2
           (incrSendWindow_reopens (encode typeWindowUpdate 0 1 2) 0
              [Byte.x68; Byte.x69; Byte.x21]
              (set_sendWindow 0 (newStream quietSession 1 streamEstablished))
              eq_refl eq_refl eq_refl eq_refl Hlen eq_refl eq_refl)))).
Defined.

(** ** After Close *)

(** X20: a second [Close] does nothing.  Whenever [Close] returns (the
    stream was not in Init), calling it again returns nil and leaves the
    stream exactly as the first call left it: no second FIN, no second
    request to remove the stream. *)
Theorem Close_twice (s : Stream) :
  state s <> streamInit ->
  Close (snd (Close s)) = (CloseReturn None, snd (Close s)).
Proof.
  lay_out s. cbn [state]. unfold Close, Close_SEND_CLOSE, sendClose.
  destruct st; intros H; try congruence; reflexivity.
Qed.

Lemma Close_twice_witness :
  Close (snd (Close (newStream quietSession 1 streamRemoteClose)))
  = (CloseReturn None, snd (Close (newStream quietSession 1 streamRemoteClose))).
Proof.
  assert (H : state (newStream quietSession 1 streamRemoteClose) <> streamInit)
    by discriminate.
  exact (Close_twice (newStream quietSession 1 streamRemoteClose) H).
Defined.

(** X21: after a [Close] that returned, the stream takes no more data from
    the user: a [Write] of at least one byte, its deadline not fired, returns
    0 bytes with StreamClosed (ConnectionReset when the stream had been
    reset) and hands nothing to the session. *)
Theorem Write_after_Close (fuel : nat) (b : list Byte.byte) (s : Stream) :
  state s <> streamInit -> isWriteTimedOut s = false -> b <> [] ->
  Write (S fuel) b (snd (Close s))
  = (WriteDone 0 (Some (if streamState_eqb (state s) streamReset
                        then ErrConnectionReset else ErrStreamClosed)),
     snd (Close s)).
Proof.
  intros Hst Hto Hb. destruct b as [| x b]; [congruence |].
  unfold Write. cbn [Write_loop].
  change (0 <? Z.of_nat (length (x :: b))) with true. cbv iota.
  change (skipn (Z.to_nat 0) (x :: b)) with (x :: b).
  revert Hst Hto. lay_out s. unfold isWriteTimedOut. cbn [state writeTimedOut].
  intros Hst Hto.
  unfold Close, Close_SEND_CLOSE, sendClose, write, isWriteTimedOut.
  destruct st; try congruence; cbn; rewrite Hto; reflexivity.
Qed.

Lemma Write_after_Close_witness :
  fst (Write 1 [Byte.x68]
         (snd (Close (newStream quietSession 1 streamEstablished))))
  = WriteDone 0 (Some ErrStreamClosed).
Proof.
  assert (H : state (newStream quietSession 1 streamEstablished) <> streamInit)
    by discriminate.
  assert (Hb : [Byte.x68] <> []) by discriminate.
  rewrite (Write_after_Close 0 [Byte.x68]
             (newStream quietSession 1 streamEstablished) H eq_refl Hb).
  reflexivity.
Defined.

(** ** Window updates do not repeat *)

(** X22: inside the receive-window invariant and with a configured window of
    at least 2, a window update that follows another one at once sends
    nothing: the first call has brought the credit to the full window and
    has used up the pending SYN or ACK, so the second returns nil and leaves
    the stream alone. *)
Theorem sendWindowUpdate_twice (s : Stream) :
  recvInvariant s -> 2 <= MaxStreamWindowSize (session s) ->
  sendWindowUpdate (snd (sendWindowUpdate s))
  = (None, snd (sendWindowUpdate s)).
Proof.
  unfold recvInvariant, bufBytes. lay_out s.
  cbn [recvWindow recvBuf session MaxStreamWindowSize].
  intros [H0 [H1 H2]] Hmx.
  assert (Hhalf : 0 < mx / 2) by (apply Z.div_str_pos; lia).
  set (bl := match rb with
             | Some buf => wrap32 (Z.of_nat (length buf))
             | None => 0
             end).
  assert (Hbl : bl = Z.of_nat (length (match rb with
                                       | Some buf => buf
                                       | None => []
                                       end))).
  { subst bl. destruct rb; [apply wrap32_small; lia | reflexivity]. }
  assert (Hfill : add32 rw (sub32 (sub32 mx bl) rw) = mx - bl).
  { rewrite Hbl. rewrite <- (wrap32_small (Z.of_nat _)) at 1 by lia.
    apply window_refill; lia. }
  assert (Hzero : sub32 (sub32 mx bl) (mx - bl) = 0).
  { rewrite sub32_sub32. replace (mx - bl - (mx - bl)) with 0 by lia.
    reflexivity. }
  assert (Hlt0 : (0 <? mx / 2) = true) by (apply Z.ltb_lt; exact Hhalf).
  unfold sendWindowUpdate, windowDelta, sendFlags, bufLen, uint32_of_len.
  cbn [state session recvBuf recvWindow MaxStreamWindowSize].
  fold bl.
  destruct st;
    cbn - [add32 sub32 wrap32 Z.div Z.ltb];
    try (destruct (sub32 (sub32 mx bl) rw <? mx / 2) eqn:Hc;
         cbn - [add32 sub32 wrap32 Z.div Z.ltb]);
    fold bl; rewrite ?Hc, ?Hfill, ?Hzero, ?Hlt0;
    cbn - [add32 sub32 wrap32 Z.div Z.ltb];
    rewrite ?Hc, ?Hfill, ?Hzero, ?Hlt0; reflexivity.
Qed.

Lemma sendWindowUpdate_twice_witness :
  fst (sendWindowUpdate
         (snd (sendWindowUpdate (newStream quietSession 1 streamInit))))
  = None
  /\ length (sent (session (snd (sendWindowUpdate
                (snd (sendWindowUpdate (newStream quietSession 1 streamInit)))))))
     = 1%nat.
Proof.
  assert (Hinv : recvInvariant (newStream quietSession 1 streamInit)).
  { unfold recvInvariant. cbn. repeat split; try discriminate; reflexivity. }
  assert (Hmx : 2 <= MaxStreamWindowSize
                       (session (newStream quietSession 1 streamInit)))
    by discriminate.
  rewrite (sendWindowUpdate_twice (newStream quietSession 1 streamInit)
             Hinv Hmx).
  split; reflexivity.
Defined.

(** ** The lock a refused frame leaves behind *)

Lemma processFlags_keeps_read (flags : Z) (s : Stream) :
  isReadTimedOut (snd (processFlags flags s)) = isReadTimedOut s
  /\ recvLock (snd (processFlags flags s)) = recvLock s.
Proof.
  lay_out s. unfold processFlags.
  destruct (hasFlag flags flagACK), (hasFlag flags flagFIN),
    (hasFlag flags flagRST), st; split; reflexivity.
Qed.

(** X24: when [readData] refuses a data frame that is larger than the
    receive window, it returns with [recvLock] still held.  A [Read] that
    follows, its deadline not fired and the stream not Reset, then waits for
    that lock and never returns, whatever is buffered. *)
Theorem readData_keeps_recvLock (hdr : header) (flags : Z) (conn : Conn)
    (s : Stream) :
  0 <= recvWindow s -> recvWindow s < Length hdr ->
  fst (processFlags flags s) = None ->
  fst (readData hdr flags conn s) = Some ErrRecvWindowExceeded
  /\ recvLock (snd (readData hdr flags conn s)) = true
  /\ (isReadTimedOut s = false ->
      state (snd (processFlags flags s)) <> streamReset ->
      forall blen : nat,
        Read blen (snd (readData hdr flags conn s))
        = (ReadDeadlock, snd (readData hdr flags conn s))).
Proof.
  intros H0 Hlt Hpf. unfold readData.
  pose proof (processFlags_keepsRecv flags s) as [Hrw _].
  pose proof (processFlags_keeps_read flags s) as [Hto _].
  destruct (processFlags flags s) as [[e |] s1]; cbn [fst snd] in *;
    [discriminate |].
  assert (Hz : (Length hdr =? 0) = false) by (apply Z.eqb_neq; lia).
  assert (Hw : (recvWindow s1 <? Length hdr) = true) by (apply Z.ltb_lt; lia).
  rewrite Hz, Hw. cbn [fst snd].
  split; [reflexivity | split; [lay_out s1; reflexivity |]].
  intros Hnt Hst blen. rewrite <- Hto in Hnt. clear Hto Hrw Hz Hw.
  revert Hnt Hst. lay_out s1. unfold Read, isReadTimedOut.
  cbn [readTimedOut state logPrintf set_recvLock set_session set_logged
       session recvWindow id].
  intros Hnt Hst.
  change (readTimedOut
            (set_recvLock true
               (set_session
                  (set_logged (lg ++ [LogRecvWindowExceeded i rw (Length hdr)])
                     (mkSession mx we snt est cls lg))
                  (mkStream rw sw i (mkSession mx we snt est cls lg) st rb rn
                     sn rt rto wt wto tm lk))))
    with rto.
  rewrite Hnt. unfold Read_loop, Read_buffered.
  destruct st; try congruence; reflexivity.
Qed.

Lemma readData_keeps_recvLock_witness :
  fst (readData (encode typeData 0 1 262145) 0 connHi
         (newStream quietSession 1 streamEstablished))
  = Some ErrRecvWindowExceeded
  /\ fst (Read 8
            (snd (readData (encode typeData 0 1 262145) 0 connHi
                    (snd (readData (encode typeData 0 1 2) 0 connHi
                            (newStream quietSession 1 streamEstablished))))))
     = ReadDeadlock.
Proof.
  split; [reflexivity |].
  assert (H0 : 0 <= recvWindow
                      (snd (readData (encode typeData 0 1 2) 0 connHi
                              (newStream quietSession 1 streamEstablished))))
    by discriminate.
  assert (H1 : recvWindow
                 (snd (readData (encode typeData 0 1 2) 0 connHi
                         (newStream quietSession 1 streamEstablished)))
               < Length (encode typeData 0 1 262145)) by reflexivity.
  assert (Hst : state (snd (processFlags 0
                  (snd (readData (encode typeData 0 1 2) 0 connHi
                          (newStream quietSession 1 streamEstablished)))))
                <> streamReset) by discriminate.
  destruct (readData_keeps_recvLock (encode typeData 0 1 262145) 0 connHi
              (snd (readData (encode typeData 0 1 2) 0 connHi
                      (newStream quietSession 1 streamEstablished)))
              H0 H1 eq_refl) as [_ [_ H]].
  rewrite (H eq_refl Hst 8%nat). reflexivity.
Defined.
